(** * A shallow embedding of [scrape.py]

    The script drives one browser session through a fixed list of date
    windows, collects the texts of the rendered posts of each window in a
    set until the set holds 500 of them, writes the set to [week<N>.json]
    and records the window in [progress.json].

    The embedding is a state-and-trace monad.  The state holds the outside
    world (browser, page, clock, random generator) and the dictionary
    [checked_ranges]; every call that leaves the script (a print, a browser
    call, a sleep, a file write) is recorded as an [event], together with the
    value it returned.  The [while] loop takes fuel: [OutOfFuel] is the only
    way a run of the model can fail to finish.

    Assumptions, all of them about the collaborators and none about the
    script: browser calls return (an exception of the driver aborts the real
    script, and is not modelled); [progress.json], when it exists, holds a
    JSON object; [document.body.scrollHeight] is an integer. *)

From Stdlib Require Import ZArith String DecimalNat DecimalString PrimFloat.
From stdpp Require Import gmap strings list fin_maps.

Local Open Scope Z_scope.
Local Set Warnings "-clear-no-such-hyp".

(** ** Values *)

(** What [json.load] can put in a dictionary: Python's [None], [bool],
    [int], [float], [str], [list] and [dict]. *)
#[warnings="-register-all"]
Inductive json : Type :=
| JNull
| JBool (b : bool)
| JInt (z : Z)
| JFloat (f : float)
| JStr (s : string)
| JArr (l : list json)
| JObj (l : list (string * json)).

(** Python's truth value of a loaded JSON value, as [if] and [and] test it. *)
Definition truthy (v : json) : bool :=
  match v with
  | JNull => false
  | JBool b => b
  | JInt z => negb (z =? 0)
  | JFloat f => negb (PrimFloat.eqb f 0%float)
  | JStr s => match s with EmptyString => false | String _ _ => true end
  | JArr l => match l with [] => false | _ => true end
  | JObj l => match l with [] => false | _ => true end
  end.

(** [str(n)] for the integers the script formats. *)
Definition str_of_nat (n : nat) : string := NilEmpty.string_of_uint (Nat.to_uint n).
Definition str_of_Z (z : Z) : string := NilEmpty.string_of_int (Z.to_int z).

(** ** Configuration *)

Record date_range : Type := { start : string; end_ : string }.

Definition date_ranges : list date_range :=
  [ {| start := "2024-08-09"; end_ := "2024-08-15" |};
    {| start := "2024-08-16"; end_ := "2024-08-22" |};
    {| start := "2024-08-23"; end_ := "2024-08-29" |};
    {| start := "2024-08-30"; end_ := "2024-09-13" |};
    {| start := "2024-09-14"; end_ := "2024-09-19" |};
    {| start := "2024-09-20"; end_ := "2024-09-26" |};
    {| start := "2024-09-27"; end_ := "2024-10-03" |};
    {| start := "2024-10-04"; end_ := "2024-10-18" |};
    {| start := "2024-10-19"; end_ := "2024-10-24" |};
    {| start := "2024-10-25"; end_ := "2024-10-31" |};
    {| start := "2024-11-01"; end_ := "2024-11-07" |};
    {| start := "2024-11-08"; end_ := "2024-11-22" |};
    {| start := "2024-11-23"; end_ := "2024-11-28" |};
    {| start := "2024-11-29"; end_ := "2024-12-05" |};
    {| start := "2024-12-06"; end_ := "2024-12-12" |};
    {| start := "2024-12-13"; end_ := "2024-12-19" |} ].

Definition progress_file : string := "progress.json".

Definition login_url : string := "https://twitter.com/login".

(** The three strings the [for] loop derives from a window and its 0-based
    position [i]. *)
Definition date_key (r : date_range) : string :=
  start r +:+ "_to_" +:+ end_ r.

Definition week_file (i : nat) : string :=
  "week" +:+ str_of_nat (i + 1) +:+ ".json".

Definition url (r : date_range) : string :=
  "https://twitter.com/search?q=mourinho%20lang%3Atr%20since%3A" +:+ start r
  +:+ "%20until%3A" +:+ end_ r +:+ "&src=typed_query&f=live".

(** ** Events *)

(** What [json.dump] is given: the list of a window's texts, or the progress
    dictionary. *)
Inductive dumped : Type :=
| DList (l : list string)
| DDict (m : gmap string json).

Inductive event : Type :=
| EPrint (line : string)
| EGet (address : string)                 (* driver.get *)
| ESleep (seconds : Z)                    (* time.sleep(n) *)
| ESleepUniform (lo hi : Z)               (* time.sleep(random.uniform(lo, hi)) *)
| EFindTexts (texts : list string)        (* find_elements, then .text of each *)
| EScrollToBottom                         (* window.scrollTo(0, scrollHeight) *)
| EScrollHeight (h : Z)                   (* return document.body.scrollHeight *)
| EDump (file : string) (obj : dumped)    (* open(file, "w"); json.dump(obj) *)
| EQuit.                                  (* driver.quit *)

(** ** The outside world *)

(** The browser session with the page it shows, the clock and the random
    generator.  Every call is a transition of the world; the two queries
    also return what they read.  Sleeping is a transition too: the page
    loads while the script waits. *)
Class World (W : Type) : Type := {
  w_get : string → W → W;
  w_find_tweet_texts : W → list string * W;
  w_scroll_to_bottom : W → W;
  w_scroll_height : W → Z * W;
  w_sleep : Z → W → W;
  w_sleep_uniform : Z → Z → W → W;
  w_quit : W → W
}.

(** ** The monad *)

Inductive outcome (A : Type) : Type :=
| Done (a : A)
| OutOfFuel.
Arguments Done {A} a.
Arguments OutOfFuel {A}.

Section Scraper.
Context {W : Type} {ops : World W}.

Record state : Type := { world : W; checked_ranges : gmap string json }.

Definition M (A : Type) : Type := state → outcome A * state * list event.

Definition ret {A} (a : A) : M A := λ st, (Done a, st, []).

Definition bind {A B} (m : M A) (f : A → M B) : M B := λ st,
  match m st with
  | (Done a, st1, ev1) =>
      match f a st1 with (r, st2, ev2) => (r, st2, ev1 ++ ev2) end
  | (OutOfFuel, st1, ev1) => (OutOfFuel, st1, ev1)
  end.

Definition out_of_fuel {A} : M A := λ st, (OutOfFuel, st, []).

(** A call into the world: the transition, and the event that records it. *)
Definition call {A} (f : W → A * W) (ev : A → event) : M A := λ st,
  match f (world st) with
  | (a, w) => (Done a, {| world := w; checked_ranges := checked_ranges st |}, [ev a])
  end.

Definition call_ (f : W → W) (ev : event) : M unit :=
  call (λ w, (tt, f w)) (λ _, ev).

Definition print (line : string) : M unit := λ st, (Done tt, st, [EPrint line]).

Definition driver_get (address : string) : M unit := call_ (w_get address) (EGet address).
Definition find_tweet_texts : M (list string) := call w_find_tweet_texts EFindTexts.
Definition scroll_to_bottom : M unit := call_ w_scroll_to_bottom EScrollToBottom.
Definition scroll_height : M Z := call w_scroll_height EScrollHeight.
Definition sleep (n : Z) : M unit := call_ (w_sleep n) (ESleep n).
Definition sleep_uniform (lo hi : Z) : M unit :=
  call_ (w_sleep_uniform lo hi) (ESleepUniform lo hi).
Definition driver_quit : M unit := call_ w_quit EQuit.

Definition dump (file : string) (obj : dumped) : M unit :=
  λ st, (Done tt, st, [EDump file obj]).

Definition get_checked_ranges : M (gmap string json) :=
  λ st, (Done (checked_ranges st), st, []).

(** [checked_ranges[key] = v] *)
Definition set_checked_range (key : string) (v : json) : M unit := λ st,
  (Done tt, {| world := world st; checked_ranges := <[key := v]> (checked_ranges st) |}, []).

(** stdpp's notations [x ← m; k] and [m;; k] stand for [bind]. *)
#[export] Instance M_ret : MRet M := @ret.
#[export] Instance M_bind : MBind M := λ A B f m, bind m f.

(** ** The collect loop *)

(** [for tweet in tweet_elements: tweets.add(tweet.text)] *)
Definition add_all (tweets : gset string) (texts : list string) : gset string :=
  foldl (λ acc text, acc ∪ {[ text ]}) tweets texts.

(** The variables the [while] loop reads and assigns. *)
Record loop_vars : Type := {
  tweets : gset string;
  last_height : Z;
  scroll_attempts : Z
}.

(** One pass through the body of [while len(tweets) < 500]. *)
Definition loop_body (v : loop_vars) : M loop_vars :=
  texts ← find_tweet_texts;
  let tweets := add_all (tweets v) texts in
  print ("Collected " +:+ str_of_nat (size tweets) +:+ " tweets so far.") ;;
  scroll_to_bottom ;;
  sleep_uniform 2 5 ;;
  new_height ← scroll_height;
  scroll_attempts ←
    (if new_height =? last_height v then
       let scroll_attempts := scroll_attempts v + 1 in
       print ("No new tweets loaded. Scroll attempts: " +:+ str_of_Z scroll_attempts) ;;
       if 3 <=? scroll_attempts then
         print "Pausing to mimic human behavior..." ;;
         sleep_uniform 10 20 ;;
         ret 0
       else ret scroll_attempts
     else ret 0);
  ret {| tweets := tweets; last_height := new_height; scroll_attempts := scroll_attempts |}.

(** [while len(tweets) < 500: body].  The test comes first, so a loop whose
    test fails returns with no fuel at all. *)
Fixpoint collect_loop (fuel : nat) (v : loop_vars) : M loop_vars :=
  if (size (tweets v) <? 500)%nat then
    match fuel with
    | O => out_of_fuel
    | S fuel => v' ← loop_body v; collect_loop fuel v'
    end
  else ret v.

(** ** One window *)

(** [date_key in checked_ranges and checked_ranges[date_key]]: the lookup
    is only made for a key that is there, so it cannot raise. *)
Definition already_checked (checked : gmap string json) (key : string) : bool :=
  match checked !! key with
  | Some v => truthy v
  | None => false
  end.

(** The body of [for i, date_range in enumerate(date_ranges)]. *)
Definition scrape_window (fuel : nat) (i : nat) (r : date_range) : M unit :=
  checked ← get_checked_ranges;
  if already_checked checked (date_key r) then
    print ("Skipping already checked range: " +:+ date_key r)
  else
    print ("Scraping tweets from " +:+ start r +:+ " to " +:+ end_ r +:+ "...") ;;
    driver_get (url r) ;;
    sleep 5 ;;
    last_height ← scroll_height;
    v ← collect_loop fuel {| tweets := ∅; last_height := last_height; scroll_attempts := 0 |};
    print ("Finished scraping " +:+ str_of_nat (size (tweets v)) +:+ " tweets for "
           +:+ start r +:+ " to " +:+ end_ r) ;;
    dump (week_file i) (DList (elements (tweets v))) ;;
    set_checked_range (date_key r) (JBool true) ;;
    checked ← get_checked_ranges;
    dump progress_file (DDict checked).

Fixpoint for_windows (fuel : nat) (i : nat) (ranges : list date_range) : M unit :=
  match ranges with
  | [] => ret tt
  | r :: ranges => scrape_window fuel i r ;; for_windows fuel (S i) ranges
  end.

(** ** The script *)

(** [os.path.exists(progress_file)] and [json.load]: [on_disk] is the
    content of [progress.json] when the file exists. *)
Definition load_progress (on_disk : option (gmap string json)) : gmap string json :=
  match on_disk with
  | Some loaded => loaded
  | None => ∅
  end.

Definition script (fuel : nat) : M unit :=
  driver_get login_url ;;
  sleep 30 ;;
  for_windows fuel 0 date_ranges ;;
  print "All weeks processed." ;;
  driver_quit.

(** [scrape_tweets()], started on the world [w0] (the Chrome session that
    [webdriver.Chrome] opened) with [on_disk] in [progress.json].  Every
    [while] loop of the run may make [fuel] passes. *)
Definition scrape_tweets (fuel : nat) (on_disk : option (gmap string json)) (w0 : W)
  : outcome unit * state * list event :=
  script fuel {| world := w0; checked_ranges := load_progress on_disk |}.
End Scraper.

Arguments state W : clear implicits.
Arguments M W : clear implicits.

(** ** Reading a trace *)

(** The heights the script read, in order. *)
Definition heights (evs : list event) : list Z :=
  omap (λ e, match e with EScrollHeight h => Some h | _ => None end) evs.

(** The long pauses: [time.sleep(random.uniform(10, 20))]. *)
Definition is_backoff (e : event) : bool :=
  match e with
  | ESleepUniform lo hi => (lo =? 10) && (hi =? 20)
  | _ => false
  end.

Definition backoffs (evs : list event) : nat := length (List.filter is_backoff evs).

(** The scans of the page, and every text a scan returned. *)
Definition scans (evs : list event) : list (list string) :=
  omap (λ e, match e with EFindTexts texts => Some texts | _ => None end) evs.

Definition seen (evs : list event) : gset string := list_to_set (concat (scans evs)).

(** The addresses the browser was sent to, in order. *)
Definition gets (evs : list event) : list string :=
  omap (λ e, match e with EGet address => Some address | _ => None end) evs.

(** The kinds of event the [while] loop emits: no navigation and no file
    write is among them. *)
Definition loop_event (e : event) : bool :=
  match e with
  | EPrint _ | EFindTexts _ | EScrollToBottom | ESleepUniform _ _ | EScrollHeight _ => true
  | EGet _ | ESleep _ | EDump _ _ | EQuit => false
  end.

Definition loop_events (evs : list event) : Prop := Forall (λ e, loop_event e = true) evs.

(** The files on disk, by name, and what a trace does to them. *)
Definition write (fs : gmap string dumped) (e : event) : gmap string dumped :=
  match e with
  | EDump file obj => <[file := obj]> fs
  | _ => fs
  end.

Definition replay (fs : gmap string dumped) (evs : list event) : gmap string dumped :=
  foldl write fs evs.

(** Every window that the progress file marks as done has its output file. *)
Definition consistent (ranges : list date_range) (fs : gmap string dumped) : Prop :=
  ∀ i r m v,
    ranges !! i = Some r →
    fs !! progress_file = Some (DDict m) →
    m !! date_key r = Some v →
    truthy v = true →
    is_Some (fs !! week_file i).

(** The same, but for the windows whose key is [excused]. *)
Definition consistent_but (excused : string → Prop) (ranges : list date_range)
    (fs : gmap string dumped) : Prop :=
  ∀ i r m v,
    ranges !! i = Some r →
    fs !! progress_file = Some (DDict m) →
    m !! date_key r = Some v →
    truthy v = true →
    excused (date_key r) ∨ is_Some (fs !! week_file i).

(** A disk that holds the progress file, when there is one, and no other
    file. *)
Definition only_progress (on_disk : option (gmap string json)) : gmap string dumped :=
  match on_disk with
  | Some m => {[ progress_file := DDict m ]}
  | None => ∅
  end.

(** On the disk [fs] the progress file marks the window [r] at position [i]
    as done, and the output file of the window is not there. *)
Definition marked_without_output (fs : gmap string dumped) (i : nat) (r : date_range)
    : bool :=
  match fs !! progress_file with
  | Some (DDict m) =>
      already_checked m (date_key r)
      && match fs !! week_file i with
         | Some _ => false
         | None => true
         end
  | _ => false
  end.

(** The states of the [while] loop: [iterates v0 st0 v st] when the loop
    entered with [v0] in [st0] stands at its test with [v] in [st]. *)
Inductive iterates {W} {ops : World W} (v0 : loop_vars) (st0 : state W)
  : loop_vars → state W → Prop :=
| iterates_enter : iterates v0 st0 v0 st0
| iterates_pass v st v' st' evs :
    iterates v0 st0 v st →
    (size (tweets v) < 500)%nat →
    loop_body v st = (Done v', st', evs) →
    iterates v0 st0 v' st'.

(** ** Vocabulary of the proofs *)

(** The [if new_height == last_height] block of the loop body on its own,
    as a function of the new height [h], the old one and the counter: the
    new counter, and what the block prints and sleeps.  The proofs evaluate
    [loop_body] to this form. *)
Definition after_stall_test (h last : Z) (n : Z) : Z * list event :=
  if h =? last then
    if 3 <=? n + 1 then
      (0, [EPrint ("No new tweets loaded. Scroll attempts: " +:+ str_of_Z (n + 1));
           EPrint "Pausing to mimic human behavior...";
           ESleepUniform 10 20])
    else
      (n + 1, [EPrint ("No new tweets loaded. Scroll attempts: " +:+ str_of_Z (n + 1))])
  else (0, []).

(** The events of a window that is scraped: those before the loop, with the
    height [h] read on arrival, and those after it. *)
Definition window_opening (r : date_range) (h : Z) : list event :=
  [EPrint ("Scraping tweets from " +:+ start r +:+ " to " +:+ end_ r +:+ "...");
   EGet (url r); ESleep 5; EScrollHeight h].

Definition window_closing (i : nat) (r : date_range) (checked : gmap string json)
    (collected : gset string) : list event :=
  [EPrint ("Finished scraping " +:+ str_of_nat (size collected) +:+ " tweets for "
           +:+ start r +:+ " to " +:+ end_ r);
   EDump (week_file i) (DList (elements collected));
   EDump progress_file (DDict (<[date_key r := JBool true]> checked))].

(** A page that never shows a text from outside [pool]: [inv] holds of the
    world from some point on, whatever the loop does to it, and where [inv]
    holds a scan finds texts of [pool] only. *)
Record confined {W} {ops : World W} (pool : gset string) (inv : W → Prop) : Prop := {
  confined_find w :
    inv w → inv (w_find_tweet_texts w).2 ∧ list_to_set (w_find_tweet_texts w).1 ⊆ pool;
  confined_scroll w : inv w → inv (w_scroll_to_bottom w);
  confined_height w : inv w → inv (w_scroll_height w).2;
  confined_sleep lo hi w : inv w → inv (w_sleep_uniform lo hi w)
}.

(** [P] holds of the disk before a trace and after each of its events. *)
Fixpoint throughout (P : gmap string dumped → Prop) (fs : gmap string dumped)
    (evs : list event) : Prop :=
  P fs ∧ match evs with
         | [] => True
         | e :: evs => throughout P (write fs e) evs
         end.

(** The disk [fs] holds, as its progress file, what the dictionary [m] was
    loaded from or last dumped to. *)
Definition agrees (fs : gmap string dumped) (m : gmap string json) : Prop :=
  ∃ on_disk, fs !! progress_file = DDict <$> on_disk ∧ load_progress on_disk = m.

(** The same world with another dictionary. *)
Definition with_checked {W} (m : gmap string json) (st : state W) : state W :=
  {| world := world st; checked_ranges := m |}.

(** ** Worlds to run the script on *)

(** [n] distinct texts: "t0", "t1", ... *)
Definition some_texts (n : nat) : list string :=
  map (λ k, "t" +:+ str_of_nat k) (seq 0 n).

(** A page that is described by the number of scrolls made so far: it shows
    [page n] and is [tall n] high after [n] scrolls.  Navigation starts a
    fresh page. *)
Definition feed (page : nat → list string) (tall : nat → Z) : World nat := {|
  w_get := λ _ _, O;
  w_find_tweet_texts := λ n, (page n, n);
  w_scroll_to_bottom := S;
  w_scroll_height := λ n, (tall n, n);
  w_sleep := λ _ n, n;
  w_sleep_uniform := λ _ _ n, n;
  w_quit := λ n, n
|}.

(** 100 more posts after every scroll, on a page that grows. *)
Definition growing : World nat :=
  feed (λ n, some_texts (100 * (n + 1))) (λ n, 1000 * Z.of_nat (n + 1)).

(** 501 posts at once. *)
Definition burst : World nat :=
  feed (λ _, some_texts 501) (λ _, 1000).

(** Three posts, and nothing more however often one scrolls. *)
Definition barren : World nat :=
  feed (λ _, some_texts 3) (λ _, 1000).

(** A progress file that marks the first fifteen windows as done. *)
Definition fifteen_checked : gmap string json :=
  list_to_map (map (λ r, (date_key r, JBool true)) (take 15 date_ranges)).

(** A progress file that marks all sixteen windows as done. *)
Definition all_checked : gmap string json :=
  list_to_map (map (λ r, (date_key r, JBool true)) date_ranges).

Definition first_window : date_range := {| start := "2024-08-09"; end_ := "2024-08-15" |}.
Definition second_window : date_range := {| start := "2024-08-16"; end_ := "2024-08-22" |}.

(** A first run: a fresh page and an empty dictionary. *)
Definition fresh : state nat := {| world := O; checked_ranges := ∅ |}.

(** The loop variables as [scrape_window] sets them on a page 1000 high. *)
Definition at_entry : loop_vars :=
  {| tweets := ∅; last_height := 1000; scroll_attempts := 0 |}.

(** The lists a trace writes, by file, and their lengths. *)
Definition written_lists (evs : list event) : list (string * list string) :=
  omap (λ e, match e with EDump file (DList l) => Some (file, l) | _ => None end) evs.

Definition written_lengths (evs : list event) : list (string * nat) :=
  prod_map id length <$> written_lists evs.

(** ** Vocabulary of the further properties *)

(** The names of the files a trace writes, in order. *)
Definition dump_files (evs : list event) : list string :=
  omap (λ e, match e with EDump file _ => Some file | _ => None end) evs.

(** A window the dictionary does not mark as done. *)
Definition unchecked (checked : gmap string json) (r : date_range) : bool :=
  negb (already_checked checked (date_key r)).

(** The files the window at position [i] writes when it is scraped to the
    end, and none when it is skipped. *)
Definition files_of (checked : gmap string json) (i : nat) (r : date_range) : list string :=
  if unchecked checked r then [week_file i; progress_file] else [].

(** The progress dictionary on the disk [fs], as the next run finds it. *)
Definition progress_on (fs : gmap string dumped) : option (gmap string json) :=
  match fs !! progress_file with
  | Some (DDict m) => Some m
  | _ => None
  end.

(** [m] is [loaded] with some keys of [ranges] set to [True]. *)
Definition marks_only (ranges : list date_range) (loaded m : gmap string json) : Prop :=
  ∀ k, m !! k = loaded !! k
       ∨ (m !! k = Some (JBool true) ∧ ∃ r, r ∈ ranges ∧ k = date_key r).

(** A page with 500 posts in all, 100 more of them after every scroll. *)
Definition exact : World nat :=
  feed (λ n, some_texts (Nat.min 500 (100 * (n + 1)))) (λ n, 1000 * Z.of_nat (n + 1)).

(** * Properties *)

Ltac unfold_bind := unfold mbind, M_bind, bind.

Section Theory.
Context {W : Type} {ops : World W}.

Implicit Types (v : loop_vars) (st : state W) (evs : list event).

(** ** The monad *)

Lemma bind_done {A B} (m : M W A) (f : A → M W B) st a st1 ev1 :
  m st = (Done a, st1, ev1) →
  (m ≫= f) st = match f a st1 with (r, st2, ev2) => (r, st2, ev1 ++ ev2) end.
Proof. intros E. unfold_bind. by rewrite E. Qed.

(** ** One pass of the loop, evaluated *)

Lemma loop_body_unfold v st :
  loop_body v st =
    match w_find_tweet_texts (world st) with
    | (texts, w1) =>
        match w_scroll_height (w_sleep_uniform 2 5 (w_scroll_to_bottom w1)) with
        | (h, w3) =>
            (Done {| tweets := add_all (tweets v) texts;
                     last_height := h;
                     scroll_attempts :=
                       fst (after_stall_test h (last_height v) (scroll_attempts v)) |},
             {| world := if (h =? last_height v) && (3 <=? scroll_attempts v + 1)
                         then w_sleep_uniform 10 20 w3 else w3;
                checked_ranges := checked_ranges st |},
             [EFindTexts texts;
              EPrint ("Collected " +:+ str_of_nat (size (add_all (tweets v) texts))
                      +:+ " tweets so far.");
              EScrollToBottom; ESleepUniform 2 5; EScrollHeight h]
             ++ snd (after_stall_test h (last_height v) (scroll_attempts v)))
        end
    end.
Proof.
  unfold loop_body, after_stall_test.
  unfold mbind, M_bind, bind, mret, M_ret, ret, find_tweet_texts, scroll_to_bottom,
    sleep_uniform, scroll_height, print, call_, call; simpl.
  destruct (w_find_tweet_texts (world st)) as [texts w1]; simpl.
  destruct (w_scroll_height _) as [h w3]; simpl.
  destruct (h =? last_height v); simpl; [|done].
  destruct (3 <=? scroll_attempts v + 1); simpl; done.
Qed.

Lemma loop_body_eval v st :
  ∃ texts h w,
    loop_body v st =
      (Done {| tweets := add_all (tweets v) texts;
               last_height := h;
               scroll_attempts := fst (after_stall_test h (last_height v) (scroll_attempts v)) |},
       {| world := w; checked_ranges := checked_ranges st |},
       [EFindTexts texts;
        EPrint ("Collected " +:+ str_of_nat (size (add_all (tweets v) texts)) +:+ " tweets so far.");
        EScrollToBottom; ESleepUniform 2 5; EScrollHeight h]
       ++ snd (after_stall_test h (last_height v) (scroll_attempts v))).
Proof.
  rewrite loop_body_unfold.
  destruct (w_find_tweet_texts (world st)) as [texts w1].
  destruct (w_scroll_height _) as [h w3].
  by eexists _, _, _.
Qed.

Lemma add_all_union (s : gset string) (texts : list string) :
  add_all s texts = s ∪ list_to_set texts.
Proof.
  unfold add_all. revert s.
  induction texts as [|t texts IH]; intros s; simpl.
  - set_solver.
  - rewrite IH. set_solver.
Qed.

Lemma replay_loop_events fs evs : loop_events evs → replay fs evs = fs.
Proof.
  unfold replay. induction 1 as [|e evs He _ IH]; simpl; [done|].
  destruct e; try done.
Qed.

Lemma gets_loop_events evs : loop_events evs → gets evs = [].
Proof.
  unfold gets. induction 1 as [|e evs He _ IH]; simpl; [done|].
  destruct e; try done.
Qed.

Lemma gets_app ev1 ev2 : gets (ev1 ++ ev2) = gets ev1 ++ gets ev2.
Proof. apply omap_app. Qed.

Lemma gets_cons e evs :
  gets (e :: evs) = match e with EGet address => address :: gets evs | _ => gets evs end.
Proof. by destruct e. Qed.

Lemma replay_app fs ev1 ev2 : replay fs (ev1 ++ ev2) = replay (replay fs ev1) ev2.
Proof. apply foldl_app. Qed.

Lemma seen_app ev1 ev2 : seen (ev1 ++ ev2) = seen ev1 ∪ seen ev2.
Proof.
  unfold seen, scans. rewrite omap_app, concat_app, list_to_set_app_L. done.
Qed.

(** Everything one pass does, but for the stall counter. *)
Lemma loop_body_pass v st :
  ∃ v' st' evs,
    loop_body v st = (Done v', st', evs)
    ∧ checked_ranges st' = checked_ranges st
    ∧ loop_events evs
    ∧ tweets v' = tweets v ∪ seen evs
    ∧ heights evs = [last_height v']
    ∧ length (scans evs) = 1%nat.
Proof.
  destruct (loop_body_eval v st) as (texts & h & w & E).
  eexists _, _, _. split; [exact E|]. simpl.
  unfold after_stall_test.
  destruct (h =? last_height v); [destruct (3 <=? scroll_attempts v + 1)|];
    simpl; (split_and!; [done | repeat constructor | | done | done]);
    rewrite add_all_union; unfold seen; simpl; set_solver.
Qed.

(** ** The loop *)

Lemma collect_loop_exit fuel v st :
  (500 ≤ size (tweets v))%nat → collect_loop fuel v st = (Done v, st, []).
Proof.
  intros Hsz. destruct fuel; simpl;
    (destruct (Nat.ltb_spec (size (tweets v)) 500) as [Hlt|_]; [lia|done]).
Qed.

Lemma collect_loop_pass fuel v st :
  (size (tweets v) < 500)%nat →
  collect_loop (S fuel) v st = (loop_body v ≫= collect_loop fuel) st.
Proof.
  intros Hsz. simpl.
  destruct (Nat.ltb_spec (size (tweets v)) 500) as [_|Hge]; [done|lia].
Qed.

Lemma collect_loop_starved v st :
  (size (tweets v) < 500)%nat → collect_loop 0 v st = (OutOfFuel, st, []).
Proof.
  intros Hsz. simpl.
  destruct (Nat.ltb_spec (size (tweets v)) 500) as [_|Hge]; [done|lia].
Qed.

Lemma iterates_prepend v st v1 st1 ev1 v' st' :
  (size (tweets v) < 500)%nat →
  loop_body v st = (Done v1, st1, ev1) →
  iterates v1 st1 v' st' →
  iterates v st v' st'.
Proof.
  intros Hsz E. induction 1 as [|v2 st2 v3 st3 ev2 _ IH Hsz2 E2].
  - eapply iterates_pass; [apply iterates_enter|done|done].
  - eapply iterates_pass; [exact IH|done|done].
Qed.

(** What holds of the loop however it ends. *)
Lemma collect_loop_any fuel v st :
  ∃ o st' evs,
    collect_loop fuel v st = (o, st', evs)
    ∧ checked_ranges st' = checked_ranges st
    ∧ loop_events evs
    ∧ (length (scans evs) ≤ fuel)%nat
    ∧ match o with
      | Done v' =>
          iterates v st v' st'
          ∧ (500 ≤ size (tweets v'))%nat
          ∧ tweets v' = tweets v ∪ seen evs
      | OutOfFuel => length (scans evs) = fuel
      end.
Proof.
  revert v st. induction fuel as [|fuel IH]; intros v st.
  - destruct (decide (size (tweets v) < 500)%nat) as [Hsz|Hsz].
    + rewrite collect_loop_starved by done.
      eexists _, _, _. split; [done|]. by repeat split; try constructor.
    + rewrite collect_loop_exit by lia.
      eexists _, _, _. split; [done|]. split_and!; try done; try constructor.
      * lia.
      * unfold seen; simpl. set_solver.
  - destruct (decide (size (tweets v) < 500)%nat) as [Hsz|Hsz].
    + rewrite collect_loop_pass by done.
      destruct (loop_body_pass v st) as (v1 & st1 & ev1 & E1 & Hc1 & Hd1 & Ht1 & _ & Hs1).
      rewrite (bind_done _ _ _ _ _ _ E1).
      destruct (IH v1 st1) as (o & st' & ev2 & E2 & Hc2 & Hd2 & Hs2 & Ho).
      rewrite E2. eexists _, _, _. split; [done|].
      assert (length (scans (ev1 ++ ev2)) = S (length (scans ev2))) as Hlen
        by (unfold scans in *; rewrite omap_app, length_app, Hs1; done).
      split_and!.
      * congruence.
      * by apply Forall_app.
      * lia.
      * destruct o as [v'|].
        -- destruct Ho as (Hit & Hge & Htw). split_and!; [|done|].
           ++ eapply iterates_prepend; done.
           ++ rewrite Htw, Ht1, seen_app. set_solver.
        -- lia.
    + rewrite collect_loop_exit by lia.
      eexists _, _, _. split; [done|]. split_and!; try done; try constructor.
      * simpl; lia.
      * lia.
      * unfold seen; simpl. set_solver.
Qed.

(** ** One window, evaluated *)

Lemma scrape_window_skip fuel i r st :
  already_checked (checked_ranges st) (date_key r) = true →
  scrape_window fuel i r st
  = (Done tt, st, [EPrint ("Skipping already checked range: " +:+ date_key r)]).
Proof.
  intros Hc. unfold scrape_window.
  unfold mbind at 1, M_bind, bind, get_checked_ranges. by rewrite Hc.
Qed.

Lemma scrape_window_scrape fuel i r st :
  already_checked (checked_ranges st) (date_key r) = false →
  ∃ h w,
    w_scroll_height (w_sleep 5 (w_get (url r) (world st))) = (h, w)
    ∧ scrape_window fuel i r st
      = match collect_loop fuel {| tweets := ∅; last_height := h; scroll_attempts := 0 |}
                {| world := w; checked_ranges := checked_ranges st |} with
        | (Done v, st1, evs) =>
            (Done tt,
             {| world := world st1;
                checked_ranges := <[date_key r := JBool true]> (checked_ranges st1) |},
             window_opening r h ++ evs
             ++ window_closing i r (checked_ranges st1) (tweets v))
        | (OutOfFuel, st1, evs) => (OutOfFuel, st1, window_opening r h ++ evs)
        end.
Proof.
  intros Hc. unfold scrape_window.
  unfold mbind at 1, M_bind, bind, get_checked_ranges. rewrite Hc.
  unfold mbind, M_bind, bind, print, driver_get, sleep, scroll_height, call_, call,
    dump, set_checked_range; simpl.
  destruct (w_scroll_height _) as [h w]. exists h, w. split; [done|].
  simpl. destruct (collect_loop _ _ _) as [[[v|] st1] evs]; simpl; [|done].
  done.
Qed.

Lemma scrape_window_out_of_fuel fuel i r st st' evs :
  scrape_window fuel i r st = (OutOfFuel, st', evs) →
  already_checked (checked_ranges st) (date_key r) = false
  ∧ checked_ranges st' = checked_ranges st
  ∧ ∃ h body, evs = window_opening r h ++ body ∧ loop_events body.
Proof.
  destruct (already_checked (checked_ranges st) (date_key r)) eqn:Hc.
  { by rewrite scrape_window_skip. }
  destruct (scrape_window_scrape fuel i r st Hc) as (h & w & _ & ->).
  destruct (collect_loop_any fuel {| tweets := ∅; last_height := h; scroll_attempts := 0 |}
              {| world := w; checked_ranges := checked_ranges st |})
    as (o & st1 & body & -> & Hck & Hnd & _ & _).
  destruct o as [v|]; [done|]. intros [= <- <-].
  split_and!; [done|done|]. by exists h, body.
Qed.

Lemma scrape_window_done fuel i r st st' evs :
  scrape_window fuel i r st = (Done tt, st', evs) →
  (already_checked (checked_ranges st) (date_key r) = true
   ∧ st' = st
   ∧ evs = [EPrint ("Skipping already checked range: " +:+ date_key r)])
  ∨ (already_checked (checked_ranges st) (date_key r) = false
     ∧ ∃ h body collected,
         evs = window_opening r h ++ body
               ++ window_closing i r (checked_ranges st) collected
         ∧ loop_events body
         ∧ collected = seen body
         ∧ (500 ≤ size collected)%nat
         ∧ checked_ranges st' = <[date_key r := JBool true]> (checked_ranges st)).
Proof.
  intros E.
  destruct (already_checked (checked_ranges st) (date_key r)) eqn:Hc.
  { rewrite scrape_window_skip in E by done. injection E as <- <-. by left. }
  right. split; [done|]. revert E.
  destruct (scrape_window_scrape fuel i r st Hc) as (h & w & _ & ->).
  destruct (collect_loop_any fuel {| tweets := ∅; last_height := h; scroll_attempts := 0 |}
              {| world := w; checked_ranges := checked_ranges st |})
    as (o & st1 & body & -> & Hck & Hnd & _ & Ho).
  destruct o as [v|]; [|done]. destruct Ho as (_ & Hge & Htw). simpl in *.
  intros [= <- <-]. exists h, body, (tweets v).
  rewrite Hck. split_and!; try done.
  rewrite Htw. set_solver.
Qed.

Lemma seen_window r h body i m c :
  seen (window_opening r h ++ body ++ window_closing i r m c) = seen body.
Proof. rewrite !seen_app. unfold seen at 1 3. simpl. set_solver. Qed.

(** The one list a window writes. *)
Lemma scrape_window_dumped_list fuel i r st st' evs f l :
  scrape_window fuel i r st = (Done tt, st', evs) →
  EDump f (DList l) ∈ evs →
  f = week_file i ∧ l = elements (seen evs) ∧ (500 ≤ size (seen evs))%nat.
Proof.
  intros E Hin.
  destruct (scrape_window_done _ _ _ _ _ _ E)
    as [(_ & _ & ->)|(_ & h & body & c & -> & Hle & -> & Hge & _)].
  { apply list_elem_of_singleton in Hin. discriminate. }
  rewrite seen_window.
  apply elem_of_app in Hin as [Hin|Hin].
  { unfold window_opening in Hin. set_unfold. naive_solver. }
  apply elem_of_app in Hin as [Hin|Hin].
  { unfold loop_events in Hle. rewrite Forall_forall in Hle.
    apply Hle in Hin. discriminate. }
  unfold window_closing in Hin. set_unfold.
  destruct Hin as [?|[[= -> ->]|[?|[]]]]; done.
Qed.

(** ** The loop does not look at the dictionary *)

Lemma loop_body_frame m v st :
  loop_body v (with_checked m st)
  = match loop_body v st with (o, st', evs) => (o, with_checked m st', evs) end.
Proof.
  rewrite !loop_body_unfold. simpl.
  destruct (w_find_tweet_texts (world st)) as [texts w1].
  by destruct (w_scroll_height _) as [h w3].
Qed.

Lemma collect_loop_frame m fuel v st :
  collect_loop fuel v (with_checked m st)
  = match collect_loop fuel v st with (o, st', evs) => (o, with_checked m st', evs) end.
Proof.
  revert v st. induction fuel as [|fuel IH]; intros v st.
  - simpl. by destruct (size (tweets v) <? 500)%nat.
  - destruct (decide (size (tweets v) < 500)%nat) as [Hsz|Hsz].
    + rewrite !collect_loop_pass by done.
      unfold_bind. rewrite loop_body_frame.
      destruct (loop_body v st) as [[[v1|] st1] ev1]; [|done].
      rewrite IH. by destruct (collect_loop fuel v1 st1) as [[o st2] ev2].
    + by rewrite !collect_loop_exit by lia.
Qed.

(** ** The dictionary across windows *)

Lemma already_checked_insert (m : gmap string json) k k' :
  already_checked m k = true →
  already_checked (<[k' := JBool true]> m) k = true.
Proof.
  unfold already_checked. intros Hk.
  destruct (decide (k' = k)) as [->|Hne].
  - by rewrite lookup_insert_eq.
  - by rewrite lookup_insert_ne.
Qed.

Lemma already_checked_insert_ne (m : gmap string json) k k' :
  k' ≠ k →
  already_checked (<[k' := JBool true]> m) k = already_checked m k.
Proof. intros Hne. unfold already_checked. by rewrite lookup_insert_ne. Qed.

Lemma scrape_window_checked fuel i r st o st' evs :
  scrape_window fuel i r st = (o, st', evs) →
  checked_ranges st' = checked_ranges st
  ∨ checked_ranges st' = <[date_key r := JBool true]> (checked_ranges st).
Proof.
  intros E. destruct o as [[]|].
  - destruct (scrape_window_done _ _ _ _ _ _ E)
      as [(_ & -> & _)|(_ & h & body & c & _ & _ & _ & _ & ->)]; auto.
  - destruct (scrape_window_out_of_fuel _ _ _ _ _ _ E) as (_ & -> & _); auto.
Qed.

Lemma scrape_window_keeps fuel i r st o st' evs k :
  scrape_window fuel i r st = (o, st', evs) →
  already_checked (checked_ranges st) k = true →
  already_checked (checked_ranges st') k = true.
Proof.
  intros E Hk. destruct (scrape_window_checked _ _ _ _ _ _ _ E) as [->| ->]; [done|].
  by apply already_checked_insert.
Qed.

Lemma for_windows_keeps fuel i ranges st o st' evs k :
  for_windows fuel i ranges st = (o, st', evs) →
  already_checked (checked_ranges st) k = true →
  already_checked (checked_ranges st') k = true.
Proof.
  revert i st evs. induction ranges as [|r ranges IH]; intros i st evs; simpl.
  - by intros [= _ <- _].
  - unfold_bind.
    destruct (scrape_window fuel i r st) as [[[[]|] st1] ev1] eqn:E1.
    + destruct (for_windows fuel (S i) ranges st1) as [[o2 st2] ev2] eqn:E2.
      intros [= <- <- _] Hk. eapply IH; [exact E2|].
      eapply scrape_window_keeps; done.
    + intros [= _ <- _] Hk. eapply scrape_window_keeps; done.
Qed.

(** A window that has been passed is marked, whether it was scraped or
    skipped. *)
Lemma scrape_window_marks fuel i r st st' evs :
  scrape_window fuel i r st = (Done tt, st', evs) →
  already_checked (checked_ranges st') (date_key r) = true.
Proof.
  intros E.
  destruct (scrape_window_done _ _ _ _ _ _ E)
    as [(Hc & -> & _)|(_ & h & body & c & _ & _ & _ & _ & ->)]; [done|].
  unfold already_checked. by rewrite lookup_insert_eq.
Qed.

Lemma for_windows_marks fuel i ranges st st' evs :
  for_windows fuel i ranges st = (Done tt, st', evs) →
  ∀ r, r ∈ ranges → already_checked (checked_ranges st') (date_key r) = true.
Proof.
  revert i st evs. induction ranges as [|r ranges IH]; intros i st evs; simpl.
  - intros _ r Hr. by apply elem_of_nil in Hr.
  - unfold_bind.
    destruct (scrape_window fuel i r st) as [[[[]|] st1] ev1] eqn:E1; [|done].
    destruct (for_windows fuel (S i) ranges st1) as [[o2 st2] ev2] eqn:E2.
    intros [= -> <- _] r' Hr'. apply elem_of_cons in Hr' as [->|Hr'].
    + eapply for_windows_keeps; [exact E2|]. by eapply scrape_window_marks.
    + by eapply IH.
Qed.

Lemma for_windows_app fuel i l1 l2 st :
  for_windows fuel i (l1 ++ l2) st
  = (for_windows fuel i l1 ≫= λ _, for_windows fuel (i + length l1) l2) st.
Proof.
  revert i st. induction l1 as [|r l1 IH]; intros i st; simpl.
  - unfold mbind, M_bind, bind, mret, M_ret, ret. rewrite Nat.add_0_r.
    by destruct (for_windows fuel i l2 st) as [[o st'] evs].
  - unfold mbind, M_bind, bind in *.
    destruct (scrape_window fuel i r st) as [[[[]|] st1] ev1]; [|done].
    rewrite IH. replace (S i + length l1)%nat with (i + S (length l1))%nat by lia.
    destruct (for_windows fuel (S i) l1 st1) as [[[[]|] st2] ev2]; [|done].
    destruct (for_windows fuel _ l2 st2) as [[o st3] ev3].
    by rewrite app_assoc.
Qed.

(** ** The claims about the loop *)

(** C1 (as amended).  The loop makes another pass whenever its test sees
    fewer than 500 texts, and returns at once, collecting nothing more,
    whenever its test sees 500 or more.  So the set it returns with was
    reached through passes that all started below 500, and holds at least
    500 texts; and a list that a window writes has at least 500 entries.
    It need not have exactly 500: a pass adds every text of its scan before
    the test is made again. *)
Theorem collect_loop_threshold fuel :
  (∀ v st, (size (tweets v) < 500)%nat →
     collect_loop (S fuel) v st = (loop_body v ≫= collect_loop fuel) st)
  ∧ (∀ v st, (500 ≤ size (tweets v))%nat →
     collect_loop fuel v st = (Done v, st, []))
  ∧ (∀ v st v' st' evs,
       collect_loop fuel v st = (Done v', st', evs) →
       iterates v st v' st' ∧ (500 ≤ size (tweets v'))%nat)
  ∧ (∀ i r st st' evs f l,
       scrape_window fuel i r st = (Done tt, st', evs) →
       EDump f (DList l) ∈ evs →
       (500 ≤ length l)%nat).
Proof.
  split_and!.
  - intros v st. apply collect_loop_pass.
  - intros v st. apply collect_loop_exit.
  - intros v st v' st' evs E.
    destruct (collect_loop_any fuel v st) as (o & st1 & ev1 & E1 & _ & _ & _ & Ho).
    rewrite E in E1. injection E1 as <- <- <-. by destruct Ho as (? & ? & _).
  - intros i r st st' evs f l E Hin.
    destruct (scrape_window_dumped_list _ _ _ _ _ _ _ _ E Hin) as (_ & -> & Hge).
    done.
Qed.

(** C4.  A list that a window writes to its output file has no duplicates,
    and as many entries as there are distinct texts among all those the
    scans of the window returned. *)
Theorem written_list_unique fuel i r st st' evs f l :
  scrape_window fuel i r st = (Done tt, st', evs) →
  EDump f (DList l) ∈ evs →
  NoDup l ∧ length l = size (seen evs) ∧ (∀ text, text ∈ l ↔ text ∈ seen evs).
Proof.
  intros E Hin.
  destruct (scrape_window_dumped_list _ _ _ _ _ _ _ _ E Hin) as (_ & -> & _).
  split_and!.
  - apply NoDup_elements.
  - done.
  - intros text. apply elem_of_elements.
Qed.

(** C5.  On a page that never shows a text from outside a pool of fewer
    than 500 texts, the loop does not return: whatever its variables are
    when it starts (the stall counter and the last height among them), and
    however much fuel it is given, it uses all of it, one scan a pass. *)
Theorem starved_loop_never_returns (pool : gset string) (inv : W → Prop) fuel v st :
  confined pool inv →
  (size pool < 500)%nat →
  inv (world st) →
  tweets v ⊆ pool →
  ∃ st' evs,
    collect_loop fuel v st = (OutOfFuel, st', evs) ∧ length (scans evs) = fuel.
Proof.
  intros Hconf Hpool. revert v st.
  induction fuel as [|fuel IH]; intros v st Hinv Hsub.
  - exists st, []. split; [|done]. apply collect_loop_starved.
    apply subseteq_size in Hsub. lia.
  - assert (size (tweets v) < 500)%nat as Hsz
      by (apply subseteq_size in Hsub; lia).
    rewrite collect_loop_pass by done.
    unfold_bind. rewrite loop_body_unfold.
    destruct (confined_find _ _ Hconf _ Hinv) as [Hinv1 Htexts].
    destruct (w_find_tweet_texts (world st)) as [texts w1]; simpl in *.
    pose proof (confined_height _ _ Hconf _
      (confined_sleep _ _ Hconf 2 5 _ (confined_scroll _ _ Hconf _ Hinv1))) as Hinv3.
    destruct (w_scroll_height _) as [h w3]; simpl in *.
    match goal with |- context [collect_loop fuel ?v1 ?st1] =>
      destruct (IH v1 st1) as (st' & ev2 & -> & Hlen) end.
    + simpl. destruct (_ && _); [by apply (confined_sleep _ _ Hconf)|done].
    + simpl. rewrite add_all_union. set_solver.
    + eexists _, _. split; [done|]. simpl.
      unfold scans in *. rewrite omap_app, length_app, Hlen.
      unfold after_stall_test.
      by destruct (h =? last_height v); [destruct (3 <=? scroll_attempts v + 1)|].
Qed.

(** C3.  One pass of the loop reads one height [h].  If [h] differs from
    the height before, the counter becomes zero and there is no long pause;
    if it is the same, the counter goes up by one, unless that makes it 3,
    in which case the pass makes exactly one long pause and the counter
    becomes zero.  In each case the pass returns to the test of the loop,
    which goes on with the new variables. *)
Theorem stall_counter_step v st :
  ∃ v' st' evs h,
    loop_body v st = (Done v', st', evs)
    ∧ heights evs = [h]
    ∧ (h ≠ last_height v → scroll_attempts v' = 0 ∧ backoffs evs = 0%nat)
    ∧ (h = last_height v → scroll_attempts v + 1 < 3 →
       scroll_attempts v' = scroll_attempts v + 1 ∧ backoffs evs = 0%nat)
    ∧ (h = last_height v → 3 ≤ scroll_attempts v + 1 →
       scroll_attempts v' = 0 ∧ backoffs evs = 1%nat)
    ∧ (∀ fuel, (size (tweets v) < 500)%nat →
       collect_loop (S fuel) v st
       = match collect_loop fuel v' st' with (o, st2, ev2) => (o, st2, evs ++ ev2) end).
Proof.
  destruct (loop_body_eval v st) as (texts & h & w & E).
  eexists _, _, _, h. split; [exact E|].
  unfold after_stall_test. split_and!.
  - by destruct (h =? last_height v); [destruct (3 <=? scroll_attempts v + 1)|].
  - intros Hne. apply Z.eqb_neq in Hne. by rewrite Hne.
  - intros -> Hlt. rewrite Z.eqb_refl.
    by destruct (Z.leb_spec 3 (scroll_attempts v + 1)); [lia|].
  - intros -> Hge. rewrite Z.eqb_refl.
    by destruct (Z.leb_spec 3 (scroll_attempts v + 1)); [|lia].
  - intros fuel Hsz. rewrite collect_loop_pass by done.
    by rewrite (bind_done _ _ _ _ _ _ E).
Qed.

(** C10.  At the test of the loop, as [scrape_window] enters it (counter
    zero) and after every pass, the stall counter is 0, 1 or 2; and the
    height a pass leaves in [last_height] is the one height that pass
    read, whether or not it differs from the one before. *)
Theorem stall_counter_range v0 st0 v st :
  scroll_attempts v0 = 0 →
  iterates v0 st0 v st →
  0 ≤ scroll_attempts v ≤ 2
  ∧ ∀ v' st' evs,
      loop_body v st = (Done v', st', evs) →
      0 ≤ scroll_attempts v' ≤ 2 ∧ heights evs = [last_height v'].
Proof.
  intros H0 Hit.
  assert (∀ v st v' st' evs,
            0 ≤ scroll_attempts v ≤ 2 →
            loop_body v st = (Done v', st', evs) →
            0 ≤ scroll_attempts v' ≤ 2 ∧ heights evs = [last_height v']) as Hstep.
  { clear. intros v st v' st' evs Hr E.
    destruct (loop_body_eval v st) as (texts & h & w & E').
    rewrite E in E'. injection E' as -> _ ->. simpl.
    unfold after_stall_test.
    destruct (h =? last_height v); [|simpl; split; [lia|done]].
    destruct (Z.leb_spec 3 (scroll_attempts v + 1)); simpl; split; (lia || done). }
  assert (0 ≤ scroll_attempts v ≤ 2) as Hr.
  { induction Hit as [|v1 st1 v2 st2 evs _ IH _ E]; [lia|].
    by apply (Hstep _ _ _ _ _ IH E). }
  split; [done|]. intros v' st' evs E. by apply (Hstep _ _ _ _ _ Hr E).
Qed.
(** ** Files *)

Lemma throughout_now P fs evs : throughout P fs evs → P fs.
Proof. destruct evs; simpl; tauto. Qed.

Lemma throughout_app P fs ev1 ev2 :
  throughout P fs (ev1 ++ ev2)
  ↔ throughout P fs ev1 ∧ throughout P (replay fs ev1) ev2.
Proof.
  revert fs. induction ev1 as [|e ev1 IH]; intros fs; simpl.
  - pose proof (throughout_now P fs ev2). tauto.
  - rewrite IH. unfold replay. tauto.
Qed.

Lemma throughout_prefix P fs evs p q :
  throughout P fs evs → evs = p ++ q → P (replay fs p).
Proof.
  intros Hall ->. apply throughout_app in Hall as [_ Hall].
  by apply throughout_now in Hall.
Qed.

Lemma throughout_loop_events P fs evs :
  loop_events evs → P fs → throughout P fs evs.
Proof.
  intros Hle HP. induction Hle as [|e evs He _ IH]; simpl; [done|].
  split; [done|]. by destruct e.
Qed.

Lemma week_file_not_progress i : week_file i ≠ progress_file.
Proof. unfold week_file, progress_file. simpl. discriminate. Qed.

Lemma consistent_iff ranges fs :
  consistent ranges fs ↔ consistent_but (λ _, False) ranges fs.
Proof.
  split.
  - intros Hcons i r m x Hi Hp Hm Ht. right. by eapply Hcons.
  - intros Hcons i r m x Hi Hp Hm Ht. by destruct (Hcons i r m x Hi Hp Hm Ht).
Qed.

Lemma consistent_insert_week excused ranges fs i obj :
  consistent_but excused ranges fs →
  consistent_but excused ranges (<[week_file i := obj]> fs).
Proof.
  intros Hcons j r m x Hj Hp Hm Ht.
  rewrite lookup_insert_ne in Hp by apply week_file_not_progress.
  destruct (Hcons j r m x Hj Hp Hm Ht) as [He|Hsome]; [by left|].
  right. apply lookup_insert_is_Some'. by right.
Qed.

(** The one step that changes the progress file. *)
Lemma consistent_insert_progress excused ranges fs i r m l :
  NoDup (date_key <$> ranges) →
  ranges !! i = Some r →
  agrees fs m →
  consistent_but excused ranges fs →
  consistent_but excused ranges
    (<[progress_file := DDict (<[date_key r := JBool true]> m)]>
       (<[week_file i := DList l]> fs)).
Proof.
  intros Hnd Hi (on_disk & Hfs & Hload) Hcons j r' m' x Hj Hp Hm Ht.
  rewrite lookup_insert_eq in Hp. injection Hp as <-.
  rewrite lookup_insert_ne by (apply not_eq_sym, week_file_not_progress).
  destruct (decide (date_key r = date_key r')) as [Hk|Hk].
  - right. apply lookup_insert_is_Some'. left. f_equal.
    eapply (NoDup_lookup _ _ _ _ Hnd).
    + rewrite list_lookup_fmap, Hi. done.
    + rewrite list_lookup_fmap, Hj. simpl. by rewrite Hk.
  - rewrite lookup_insert_ne in Hm by done.
    destruct on_disk as [m0|]; simpl in *; subst m.
    + destruct (Hcons j r' m0 x Hj Hfs Hm Ht) as [He|Hsome]; [by left|].
      right. apply lookup_insert_is_Some'. by right.
    + by rewrite lookup_empty in Hm.
Qed.

Lemma scrape_window_consistent excused ranges fuel i r st fs o st' evs :
  NoDup (date_key <$> ranges) →
  ranges !! i = Some r →
  agrees fs (checked_ranges st) →
  consistent_but excused ranges fs →
  scrape_window fuel i r st = (o, st', evs) →
  throughout (consistent_but excused ranges) fs evs
  ∧ agrees (replay fs evs) (checked_ranges st').
Proof.
  intros Hnd Hi Hag Hcons E. destruct o as [[]|].
  - destruct (scrape_window_done _ _ _ _ _ _ E)
      as [(_ & -> & ->)|(_ & h & body & c & -> & Hle & _ & _ & ->)].
    { by simpl. }
    assert (replay fs (window_opening r h ++ body) = fs) as Hfs
      by (rewrite replay_app; simpl; by apply replay_loop_events).
    rewrite app_assoc. split.
    + rewrite throughout_app, throughout_app, Hfs. split_and!.
      * by simpl.
      * by apply throughout_loop_events.
      * simpl. split_and!; try done.
        -- by apply consistent_insert_week.
        -- by apply consistent_insert_progress.
    + rewrite replay_app, Hfs. simpl.
      exists (Some (<[date_key r := JBool true]> (checked_ranges st))).
      by rewrite lookup_insert_eq.
  - destruct (scrape_window_out_of_fuel _ _ _ _ _ _ E) as (_ & -> & h & body & -> & Hle).
    assert (replay fs (window_opening r h ++ body) = fs) as Hfs
      by (rewrite replay_app; simpl; by apply replay_loop_events).
    rewrite Hfs. split; [|done].
    rewrite throughout_app. split; [by simpl|]. by apply throughout_loop_events.
Qed.

Lemma for_windows_consistent excused ranges fuel rest :
  NoDup (date_key <$> ranges) →
  ∀ before st fs o st' evs,
    ranges = before ++ rest →
    agrees fs (checked_ranges st) →
    consistent_but excused ranges fs →
    for_windows fuel (length before) rest st = (o, st', evs) →
    throughout (consistent_but excused ranges) fs evs
    ∧ agrees (replay fs evs) (checked_ranges st').
Proof.
  intros Hnd. induction rest as [|r rest IH]; intros before st fs o st' evs Hsplit Hag Hcons.
  - simpl. by intros [= _ <- <-].
  - simpl. unfold_bind.
    destruct (scrape_window fuel (length before) r st) as [[o1 st1] ev1] eqn:E1.
    assert (ranges !! length before = Some r) as Hi
      by (rewrite Hsplit; apply list_lookup_middle; done).
    destruct (scrape_window_consistent _ _ _ _ _ _ _ _ _ _ Hnd Hi Hag Hcons E1)
      as [Hall1 Hag1].
    destruct o1 as [[]|]; [|by intros [= _ <- <-]].
    destruct (for_windows fuel (S (length before)) rest st1) as [[o2 st2] ev2] eqn:E2.
    intros [= _ <- <-].
    destruct (IH (before ++ [r]) st1 (replay fs ev1) o2 st2 ev2) as [Hall2 Hag2].
    + by rewrite <- app_assoc.
    + done.
    + by apply (throughout_prefix _ _ _ ev1 [] Hall1); rewrite app_nil_r.
    + rewrite length_app. simpl. by rewrite Nat.add_1_r.
    + split; [by apply throughout_app|by rewrite replay_app].
Qed.

(** What is in a file after a trace: what was there before, or what the
    trace wrote. *)
Lemma replay_lookup_ext (fs fs' : gmap string dumped) evs file :
  fs !! file = fs' !! file → replay fs evs !! file = replay fs' evs !! file.
Proof.
  unfold replay. revert fs fs'.
  induction evs as [|e evs IH]; intros fs fs' Hsame; simpl; [done|].
  apply IH. destruct e; try done. simpl.
  destruct (decide (file0 = file)) as [->|Hne].
  - by rewrite !lookup_insert_eq.
  - by rewrite !lookup_insert_ne.
Qed.

Lemma replay_is_Some (fs : gmap string dumped) evs file :
  is_Some (replay fs evs !! file) →
  is_Some (fs !! file) ∨ ∃ obj, EDump file obj ∈ evs.
Proof.
  unfold replay. revert fs.
  induction evs as [|e evs IH]; intros fs Hsome; simpl in *; [by left|].
  destruct (IH _ Hsome) as [Hnow|(obj & Hin)].
  - destruct e; try (by left). simpl in Hnow.
    apply lookup_insert_is_Some' in Hnow as [->|Hold]; [|by left].
    right. eexists. by left.
  - right. exists obj. by right.
Qed.

Lemma date_keys_differ : NoDup (date_key <$> date_ranges).
Proof. apply (bool_decide_unpack _). by vm_compute. Qed.

(** ** The script, evaluated *)

Lemma script_unfold fuel st :
  script fuel st
  = match for_windows fuel 0 date_ranges
            {| world := w_sleep 30 (w_get login_url (world st));
               checked_ranges := checked_ranges st |} with
    | (Done _, st1, evs) =>
        (Done tt,
         {| world := w_quit (world st1); checked_ranges := checked_ranges st1 |},
         EGet login_url :: ESleep 30 :: evs ++ [EPrint "All weeks processed."; EQuit])
    | (OutOfFuel, st1, evs) => (OutOfFuel, st1, EGet login_url :: ESleep 30 :: evs)
    end.
Proof.
  unfold script. generalize (for_windows fuel 0 date_ranges). intros loop.
  unfold mbind, M_bind, bind, driver_get, sleep, print, driver_quit, call_, call.
  simpl. by destruct (loop _) as [[[[]|] st1] evs].
Qed.

(** ** What a scraped window writes, and when *)

Lemma scrape_window_writes fuel i r st st' evs :
  already_checked (checked_ranges st) (date_key r) = false →
  scrape_window fuel i r st = (Done tt, st', evs) →
  ∃ earlier l,
    evs = earlier ++ [EDump (week_file i) (DList l);
                      EDump progress_file (DDict (checked_ranges st'))]
    ∧ (∀ file obj, EDump file obj ∉ earlier)
    ∧ checked_ranges st' = <[date_key r := JBool true]> (checked_ranges st).
Proof.
  intros Hc E.
  destruct (scrape_window_done _ _ _ _ _ _ E)
    as [(Hc' & _)|(_ & h & body & c & -> & Hle & _ & _ & ->)]; [congruence|].
  eexists (window_opening r h ++ body ++ [_]), (elements c).
  split_and!; [by rewrite <- !app_assoc| |done].
  intros file obj Hin.
  apply elem_of_app in Hin as [Hin|Hin].
  { unfold window_opening in Hin. set_unfold. naive_solver. }
  apply elem_of_app in Hin as [Hin|Hin].
  { unfold loop_events in Hle. rewrite Forall_forall in Hle.
    apply Hle in Hin. discriminate. }
  apply list_elem_of_singleton in Hin. discriminate.
Qed.

(** ** Navigation across windows *)

Lemma for_windows_all_checked fuel ranges i st :
  (∀ r, r ∈ ranges → already_checked (checked_ranges st) (date_key r) = true) →
  ∃ evs, for_windows fuel i ranges st = (Done tt, st, evs) ∧ gets evs = [].
Proof.
  revert i. induction ranges as [|r ranges IH]; intros i Hall; simpl.
  - by exists [].
  - unfold_bind. rewrite scrape_window_skip by (apply Hall; left).
    destruct (IH (S i)) as (evs & -> & Hg); [intros; apply Hall; by right|].
    eexists. split; [done|]. by simpl.
Qed.

Lemma for_windows_none_checked fuel ranges :
  NoDup (date_key <$> ranges) →
  ∀ i st o st' evs,
    (∀ r, r ∈ ranges → already_checked (checked_ranges st) (date_key r) = false) →
    for_windows fuel i ranges st = (o, st', evs) →
    ∃ n, gets evs = url <$> take n ranges ∧ (o = Done tt → n = length ranges).
Proof.
  induction ranges as [|r ranges IH]; intros Hnd i st o st' evs Hnone; simpl.
  - intros [= <- _ <-]. by exists O.
  - rewrite fmap_cons in Hnd. apply NoDup_cons in Hnd as [Hr Hnd].
    unfold_bind.
    destruct (scrape_window fuel i r st) as [[o1 st1] ev1] eqn:E1.
    assert (already_checked (checked_ranges st) (date_key r) = false) as Hc
      by (apply Hnone; left).
    destruct o1 as [[]|].
    + destruct (scrape_window_done _ _ _ _ _ _ E1)
        as [(Hc' & _)|(_ & h & body & c & -> & Hle & _ & _ & Hst1)]; [congruence|].
      destruct (for_windows fuel (S i) ranges st1) as [[o2 st2] ev2] eqn:E2.
      intros [= <- _ <-].
      destruct (IH Hnd (S i) st1 o2 st2 ev2) as (n & Hg & Hn); [|done|].
      { intros r' Hr'. rewrite Hst1, already_checked_insert_ne.
        - apply Hnone. by right.
        - intros Hk. apply Hr. rewrite Hk. by apply list_elem_of_fmap_2. }
      exists (S n). split.
      * rewrite !gets_cons, !gets_app, (gets_loop_events body) by done.
        simpl. by rewrite Hg.
      * intros Ho. by rewrite Hn.
    + intros [= <- _ <-].
      destruct (scrape_window_out_of_fuel _ _ _ _ _ _ E1) as (_ & _ & h & body & -> & Hle).
      exists 1%nat. split; [|done].
      rewrite gets_app, (gets_loop_events body) by done.
      done.
Qed.

(** ** The claims about windows *)

(** C2.  Take a window [r] of the configured list whose key the loaded
    dictionary maps to [True], and a run of the [for] loop that reaches it.
    The pass of the [for] loop for [r] prints the skip line and does
    nothing else: it returns in the state it started in, so the browser
    was not called, and it emits no other event, so no file was written.
    The events of the whole [for] loop are those of the windows before,
    the skip line, and those of the windows after. *)
Theorem checked_window_is_skipped fuel (loaded : gmap string json)
    before r after w st evs :
  date_ranges = before ++ r :: after →
  loaded !! date_key r = Some (JBool true) →
  for_windows fuel 0 before {| world := w; checked_ranges := loaded |} = (Done tt, st, evs) →
  scrape_window fuel (length before) r st
  = (Done tt, st, [EPrint ("Skipping already checked range: " +:+ date_key r)])
  ∧ for_windows fuel 0 date_ranges {| world := w; checked_ranges := loaded |}
    = match for_windows fuel (S (length before)) after st with
      | (o, st', evs') =>
          (o, st', evs ++ EPrint ("Skipping already checked range: " +:+ date_key r) :: evs')
      end.
Proof.
  intros Hsplit Hloaded Ebefore.
  assert (already_checked (checked_ranges st) (date_key r) = true) as Hc.
  { eapply for_windows_keeps; [exact Ebefore|].
    unfold already_checked; simpl. by rewrite Hloaded. }
  pose proof (scrape_window_skip fuel (length before) r st Hc) as Eskip.
  split; [done|].
  rewrite Hsplit, for_windows_app. rewrite (bind_done _ _ _ _ _ _ Ebefore).
  simpl. unfold_bind. rewrite Eskip.
  by destruct (for_windows fuel _ after st) as [[o st'] evs'].
Qed.

(** C9.  The skip needs the key to be there and its value to be truthy.
    A window whose key is there with a falsy value is scraped: its pass
    starts with the scraping line and the navigation, and it runs as it
    would if the key were not in the dictionary at all: the same events,
    the same outcome, and on completion the same state. *)
Theorem falsy_entry_is_scraped fuel i r st :
  (scrape_window fuel i r st
     = (Done tt, st, [EPrint ("Skipping already checked range: " +:+ date_key r)])
   ↔ ∃ x, checked_ranges st !! date_key r = Some x ∧ truthy x = true)
  ∧ (∀ x, checked_ranges st !! date_key r = Some x → truthy x = false →
       (∃ o st' h rest,
          scrape_window fuel i r st
          = (o, st',
             EPrint ("Scraping tweets from " +:+ start r +:+ " to " +:+ end_ r +:+ "...")
             :: EGet (url r) :: ESleep 5 :: EScrollHeight h :: rest))
       ∧ ∀ o st' evs,
           scrape_window fuel i r (with_checked (delete (date_key r) (checked_ranges st)) st)
           = (o, st', evs) →
           ∃ st'',
             scrape_window fuel i r st = (o, st'', evs)
             ∧ world st'' = world st'
             ∧ (o = Done tt → st'' = st')).
Proof.
  assert (∀ st, already_checked (checked_ranges st) (date_key r) = false →
            ∃ o st' h rest,
              scrape_window fuel i r st
              = (o, st',
                 EPrint ("Scraping tweets from " +:+ start r +:+ " to " +:+ end_ r +:+ "...")
                 :: EGet (url r) :: ESleep 5 :: EScrollHeight h :: rest)) as Hscrape.
  { intros st0 Hc. destruct (scrape_window_scrape fuel i r st0 Hc) as (h & w & _ & ->).
    destruct (collect_loop _ _ _) as [[[v|] st1] body]; by eexists _, _, h, _. }
  split.
  - split.
    + intros E. unfold already_checked in Hscrape.
      destruct (checked_ranges st !! date_key r) as [v|] eqn:Hv.
      * destruct (truthy v) eqn:Ht; [by exists v|].
        destruct (Hscrape st) as (o & st' & h & rest & E'); [by rewrite Hv|].
        rewrite E in E'. discriminate.
      * destruct (Hscrape st) as (o & st' & h & rest & E'); [by rewrite Hv|].
        rewrite E in E'. discriminate.
    + intros (v & Hv & Ht). apply scrape_window_skip.
      unfold already_checked. by rewrite Hv.
  - intros v Hv Ht.
    assert (already_checked (checked_ranges st) (date_key r) = false) as Hc
      by (unfold already_checked; by rewrite Hv).
    split; [by apply Hscrape|].
    intros o st' evs.
    set (m := delete (date_key r) (checked_ranges st)).
    assert (already_checked (checked_ranges (with_checked m st)) (date_key r) = false) as Hc'.
    { unfold already_checked, m; simpl. by rewrite lookup_delete_eq. }
    destruct (scrape_window_scrape fuel i r _ Hc') as (h & w & Eh & ->).
    destruct (scrape_window_scrape fuel i r _ Hc) as (h' & w' & Eh' & ->).
    simpl in Eh. rewrite Eh in Eh'. injection Eh' as <- <-.
    change {| world := w; checked_ranges := checked_ranges (with_checked m st) |}
      with (with_checked m {| world := w; checked_ranges := checked_ranges st |}).
    rewrite collect_loop_frame.
    destruct (collect_loop_any fuel {| tweets := ∅; last_height := h; scroll_attempts := 0 |}
                {| world := w; checked_ranges := checked_ranges st |})
      as (o1 & st1 & body & -> & Hck & _).
    simpl in Hck. destruct o1 as [v1|]; simpl.
    + unfold m, window_closing. rewrite !insert_delete_eq, Hck.
      intros [= <- <- <-]. by eexists.
    + intros [= <- <- <-]. by eexists.
Qed.

(** ** The claims about the run *)

(** The disk after every event of a run, from a disk that holds what the
    run loads. *)
Lemma run_consistent excused fuel on_disk w0 fs o st evs :
  fs !! progress_file = DDict <$> on_disk →
  consistent_but excused date_ranges fs →
  scrape_tweets fuel on_disk w0 = (o, st, evs) →
  throughout (consistent_but excused date_ranges) fs evs.
Proof.
  intros Hfs Hcons. unfold scrape_tweets. rewrite script_unfold. cbn [world checked_ranges].
  destruct (for_windows fuel 0 date_ranges _) as [[o1 st1] ev1] eqn:E1.
  assert (agrees fs (load_progress on_disk)) as Hag by (by exists on_disk).
  destruct (for_windows_consistent excused date_ranges fuel date_ranges date_keys_differ
              [] {| world := w_sleep 30 (w_get login_url w0);
                    checked_ranges := load_progress on_disk |}
              fs o1 st1 ev1 eq_refl Hag Hcons E1) as [Hall _].
  assert (consistent_but excused date_ranges (replay fs ev1)) as Hend
    by (by apply (throughout_prefix _ _ _ ev1 [] Hall); rewrite app_nil_r).
  destruct o1 as [[]|]; intros [= _ _ <-]; simpl; (split_and!; [done..|]).
  - apply throughout_app. split; [done|]. by simpl.
  - done.
Qed.

(** C6 (as amended).  A window that is scraped to the end writes its output
    file, sets its key in the dictionary and dumps the dictionary, in this
    order, as the last things it does.  So a window that the progress file
    marks as done after some event of the run was either marked as done in
    the dictionary the run loaded, or has had its output file written
    earlier in the run.  A window marked in the loaded dictionary is taken
    on trust: the run never looks for its output file.  If the disk the run
    starts on has the output file of every window its progress file marks,
    then so has the disk after every event of the run, whether the run
    finishes or not. *)
Theorem progress_implies_output fuel on_disk w0 fs o st evs :
  fs !! progress_file = DDict <$> on_disk →
  scrape_tweets fuel on_disk w0 = (o, st, evs) →
  (consistent date_ranges fs →
   ∀ p q, evs = p ++ q → consistent date_ranges (replay fs p))
  ∧ (∀ p q i r m x,
       evs = p ++ q →
       date_ranges !! i = Some r →
       replay fs p !! progress_file = Some (DDict m) →
       m !! date_key r = Some x →
       truthy x = true →
       already_checked (load_progress on_disk) (date_key r) = true
       ∨ ∃ obj, EDump (week_file i) obj ∈ p)
  ∧ (∀ i r st0 st1 ev1,
       already_checked (checked_ranges st0) (date_key r) = false →
       scrape_window fuel i r st0 = (Done tt, st1, ev1) →
       ∃ earlier l,
         ev1 = earlier ++ [EDump (week_file i) (DList l);
                           EDump progress_file (DDict (checked_ranges st1))]
         ∧ (∀ file obj, EDump file obj ∉ earlier)
         ∧ checked_ranges st1 = <[date_key r := JBool true]> (checked_ranges st0)).
Proof.
  intros Hfs E. split_and!; [| |intros i r st0 st1 ev1; apply scrape_window_writes].
  - intros Hcons p q Hpq. apply consistent_iff.
    apply (throughout_prefix _ fs evs p q); [|exact Hpq].
    apply (run_consistent _ fuel on_disk w0 fs o st evs Hfs); [|exact E].
    by apply consistent_iff.
  - intros p q i r m x Hpq Hi Hp Hm Ht.
    set (excused := λ k, already_checked (load_progress on_disk) k = true).
    assert (only_progress on_disk !! progress_file = DDict <$> on_disk) as Hfs0.
    { unfold only_progress. destruct on_disk as [m0|]; simpl.
      - apply lookup_singleton_eq.
      - apply lookup_empty. }
    assert (consistent_but excused date_ranges (only_progress on_disk)) as Hcons0.
    { intros j r' m' x' _ Hp' Hm' Ht'. left. unfold excused, already_checked.
      rewrite Hfs0 in Hp'. destruct on_disk as [m0|]; [|discriminate].
      injection Hp' as ->. simpl. by rewrite Hm'. }
    pose proof (run_consistent excused fuel on_disk w0 _ o st evs Hfs0 Hcons0 E) as Hall.
    pose proof (throughout_prefix _ _ _ p q Hall Hpq) as Hcons.
    rewrite (replay_lookup_ext fs (only_progress on_disk) p progress_file) in Hp
      by (by rewrite Hfs, Hfs0).
    destruct (Hcons i r m x Hi Hp Hm Ht) as [He|Hsome]; [by left|]. right.
    apply replay_is_Some in Hsome as [Hold|Hnew]; [|exact Hnew].
    exfalso. unfold only_progress in Hold. destruct on_disk as [m0|].
    + rewrite lookup_singleton_ne in Hold by (apply not_eq_sym, week_file_not_progress).
      by destruct Hold.
    + rewrite lookup_empty in Hold. by destruct Hold.
Qed.

(** C8.  The dictionary the run starts with is the content of the progress
    file when there is one, and the empty dictionary when there is none.
    With a file that marks all windows as done, the browser is sent to the
    login page and nowhere else.  With no file, the browser is sent to the
    login page and then to the search page of each window in turn, as far
    as the run gets, and to all of them when the run finishes: no window
    is skipped. *)
Theorem startup_progress fuel w0 :
  (∀ loaded,
     scrape_tweets fuel (Some loaded) w0
     = script fuel {| world := w0; checked_ranges := loaded |})
  ∧ scrape_tweets fuel None w0 = script fuel {| world := w0; checked_ranges := ∅ |}
  ∧ (∀ loaded,
       (∀ r, r ∈ date_ranges → already_checked loaded (date_key r) = true) →
       (scrape_tweets fuel (Some loaded) w0).1.1 = Done tt
       ∧ gets (scrape_tweets fuel (Some loaded) w0).2 = [login_url])
  ∧ ∃ n,
      gets (scrape_tweets fuel None w0).2 = login_url :: (url <$> take n date_ranges)
      ∧ ((scrape_tweets fuel None w0).1.1 = Done tt → n = length date_ranges).
Proof.
  split_and!; [done|done| |].
  - intros loaded Hall. unfold scrape_tweets. rewrite script_unfold.
    destruct (for_windows_all_checked fuel date_ranges 0
                {| world := w_sleep 30 (w_get login_url w0); checked_ranges := loaded |})
      as (evs & E & Hg); [done|].
    simpl in *. rewrite E. simpl. split; [done|].
    rewrite gets_app, Hg. done.
  - unfold scrape_tweets. rewrite script_unfold. cbn [world checked_ranges].
    destruct (for_windows fuel 0 date_ranges _) as [[o1 st1] ev1] eqn:E1.
    assert (∀ r, r ∈ date_ranges →
              already_checked (∅ : gmap string json) (date_key r) = false) as Hnone
      by (intros r _; unfold already_checked; by rewrite lookup_empty).
    destruct (for_windows_none_checked fuel date_ranges date_keys_differ 0
                {| world := w_sleep 30 (w_get login_url w0); checked_ranges := ∅ |}
                o1 st1 ev1 Hnone E1) as (n & Hg & Hn).
    exists n. destruct o1 as [[]|]; simpl.
    + rewrite gets_app, Hg. simpl. rewrite app_nil_r. auto.
    + rewrite Hg. split; [done|]. discriminate.
Qed.
End Theory.

(** * The script on the three pages *)

Lemma written_lists_elem evs file l :
  (file, l) ∈ written_lists evs → EDump file (DList l) ∈ evs.
Proof.
  unfold written_lists. rewrite list_elem_of_omap.
  intros (e & He & Hfl). destruct e as [| | | | | | |file' [l'|m]|]; try discriminate.
  by injection Hfl as -> ->.
Qed.

(** On [burst], the first window is done after one pass, and writes 501
    texts. *)
Lemma burst_first_window :
  let run := scrape_window (ops := burst) 1 0 first_window fresh in
  (run.1.1, written_lengths run.2) = (Done tt, [("week1.json", 501%nat)]).
Proof. vm_compute. reflexivity. Qed.

Lemma burst_writes_501 :
  ∃ st' evs l,
    scrape_window (ops := burst) 1 0 first_window fresh = (Done tt, st', evs)
    ∧ EDump "week1.json" (DList l) ∈ evs
    ∧ length l = 501%nat.
Proof.
  pose proof burst_first_window as Hrun. simpl in Hrun.
  destruct (scrape_window (ops := burst) 1 0 first_window fresh) as [[o st'] evs].
  simpl in Hrun. injection Hrun as -> Hlen.
  unfold written_lengths in Hlen.
  destruct (written_lists evs) as [|[file l] [|? ?]] eqn:Hw; try discriminate.
  injection Hlen as -> Hl.
  exists st', evs, l. split_and!; [done| |done].
  apply written_lists_elem. rewrite Hw. by left.
Qed.

(** C1, as the spec words it: the loop stops at exactly 500, so that a
    window writes exactly 500 texts.  On [burst] the first window writes
    501. *)
Lemma exactly_500_fails :
  ¬ (∀ fuel i r st st' evs file l,
       scrape_window (ops := burst) fuel i r st = (Done tt, st', evs) →
       EDump file (DList l) ∈ evs →
       length l = 500%nat).
Proof.
  intros Hclaim.
  destruct burst_writes_501 as (st' & evs & l & E & Hin & Hlen).
  specialize (Hclaim _ _ _ _ _ _ _ _ E Hin). lia.
Qed.

Lemma collect_loop_threshold_witness :
  ∃ st' evs l,
    scrape_window (ops := burst) 1 0 first_window fresh = (Done tt, st', evs)
    ∧ EDump "week1.json" (DList l) ∈ evs
    ∧ (500 ≤ length l)%nat.
Proof.
  destruct burst_writes_501 as (st' & evs & l & E & Hin & _).
  exists st', evs, l. split_and!; [exact E|exact Hin|].
  exact (proj2 (proj2 (proj2 (collect_loop_threshold (ops := burst) 1)))
           _ _ _ _ _ _ _ E Hin).
Defined.

Lemma checked_window_is_skipped_witness :
  scrape_window (ops := growing) 5 1 second_window
    {| world := O; checked_ranges := all_checked |}
  = (Done tt, {| world := O; checked_ranges := all_checked |},
     [EPrint "Skipping already checked range: 2024-08-16_to_2024-08-22"]).
Proof.
  refine (proj1 (checked_window_is_skipped (ops := growing) 5 all_checked
                   [first_window] second_window (drop 2 date_ranges) O
                   {| world := O; checked_ranges := all_checked |}
                   [EPrint "Skipping already checked range: 2024-08-09_to_2024-08-15"]
                   _ _ _)).
  - reflexivity.
  - vm_compute. reflexivity.
  - vm_compute. reflexivity.
Defined.

Lemma stall_counter_step_witness :
  ∃ v' st' evs,
    loop_body (ops := barren)
      {| tweets := ∅; last_height := 1000; scroll_attempts := 2 |} fresh
    = (Done v', st', evs)
    ∧ scroll_attempts v' = 0
    ∧ backoffs evs = 1%nat.
Proof.
  destruct (stall_counter_step (ops := barren)
              {| tweets := ∅; last_height := 1000; scroll_attempts := 2 |} fresh)
    as (v' & st' & evs & h & E & Hh & _ & _ & Hback & _).
  exists v', st', evs. split; [exact E|].
  apply Hback; [|simpl; lia].
  assert (heights evs = [1000]) as Hh'.
  { rewrite loop_body_unfold in E. simpl in E. by injection E as <- <- <-. }
  rewrite Hh' in Hh. simpl. by injection Hh.
Defined.

Lemma written_list_unique_witness :
  ∃ st' evs (l : list string),
    scrape_window (ops := burst) 1 0 first_window fresh = (Done tt, st', evs)
    ∧ NoDup l
    ∧ length l = size (seen evs).
Proof.
  destruct burst_writes_501 as (st' & evs & l & E & Hin & _).
  exists st', evs, l.
  destruct (written_list_unique (ops := burst) 1 0 first_window fresh st' evs
              "week1.json" l E Hin) as (Hnd & Hlen & _).
  by split_and!.
Defined.

Lemma barren_confined : confined (ops := barren) (list_to_set (some_texts 3)) (λ _, True).
Proof. by split. Qed.

Lemma starved_loop_never_returns_witness :
  ∃ st' evs,
    collect_loop (ops := barren) 7 at_entry fresh = (OutOfFuel, st', evs)
    ∧ length (scans evs) = 7%nat.
Proof.
  apply (starved_loop_never_returns (ops := barren)
           (list_to_set (some_texts 3)) (λ _, True)).
  - exact barren_confined.
  - apply Nat.ltb_lt. vm_compute. reflexivity.
  - exact I.
  - simpl. apply empty_subseteq.
Defined.

(** On [burst], from a progress file that marks the first fifteen windows
    and no output file: at the end of the run the progress file marks the
    first window, and its output file is not there. *)
Lemma fifteen_checked_run :
  marked_without_output
    (replay {[ progress_file := DDict fifteen_checked ]}
       (scrape_tweets (ops := burst) 1 (Some fifteen_checked) O).2)
    0 first_window
  = true.
Proof. vm_compute. reflexivity. Qed.

Lemma marked_without_output_inconsistent fs i r :
  date_ranges !! i = Some r →
  marked_without_output fs i r = true →
  ¬ consistent date_ranges fs.
Proof.
  unfold marked_without_output, already_checked. intros Hi Hm Hcons.
  destruct (fs !! progress_file) as [[l|m]|] eqn:Hp; try discriminate.
  apply andb_prop in Hm as [Hx Hnone].
  destruct (m !! date_key r) as [x|] eqn:Hk; [|discriminate].
  destruct (Hcons i r m x Hi Hp Hk Hx) as [obj Hobj].
  rewrite Hobj in Hnone. discriminate.
Qed.

(** C6, as the spec words it: in every state of a run, a window that the
    progress file marks as done has its output file.  Not so when the run
    starts from a progress file that marks windows whose output files are
    missing. *)
Lemma marked_needs_no_output :
  ¬ (∀ fuel on_disk w0 fs o st evs,
       fs !! progress_file = DDict <$> on_disk →
       scrape_tweets (ops := burst) fuel on_disk w0 = (o, st, evs) →
       ∀ p q, evs = p ++ q → consistent date_ranges (replay fs p)).
Proof.
  intros Hclaim.
  pose proof fifteen_checked_run as Hrun.
  destruct (scrape_tweets (ops := burst) 1 (Some fifteen_checked) O) as [[o st] evs] eqn:E.
  cbn [snd] in Hrun.
  apply (marked_without_output_inconsistent _ 0 first_window eq_refl Hrun).
  apply (Hclaim 1%nat (Some fifteen_checked) O {[ progress_file := DDict fifteen_checked ]}
           o st evs (lookup_singleton_eq _ _) E evs []).
  symmetry. apply app_nil_r.
Qed.

Lemma progress_implies_output_witness :
  consistent date_ranges (replay ∅ (scrape_tweets (ops := burst) 1 None O).2).
Proof.
  destruct (scrape_tweets (ops := burst) 1 None O) as [[o st] evs] eqn:E. cbn [snd].
  refine (proj1 (progress_implies_output (ops := burst) 1 None O ∅ o st evs _ E)
            _ evs [] _).
  - reflexivity.
  - intros i r m x _ Hp. rewrite lookup_empty in Hp. discriminate Hp.
  - symmetry. apply app_nil_r.
Defined.


Lemma startup_progress_witness :
  (scrape_tweets (ops := growing) 5 (Some all_checked) O).1.1 = Done tt
  ∧ gets (scrape_tweets (ops := growing) 5 (Some all_checked) O).2 = [login_url].
Proof.
  apply (proj1 (proj2 (proj2 (startup_progress (ops := growing) 5 O)))).
  intros r Hr. apply list_elem_of_In in Hr. simpl in Hr.
  repeat (destruct Hr as [<-|Hr]; [vm_compute; reflexivity|]). destruct Hr.
Defined.

Lemma falsy_entry_is_scraped_witness :
  ∃ o st' h rest,
    scrape_window (ops := barren) 2 0 first_window
      {| world := O; checked_ranges := {[ "2024-08-09_to_2024-08-15" := JInt 0 ]} |}
    = (o, st',
       EPrint "Scraping tweets from 2024-08-09 to 2024-08-15..."
       :: EGet (url first_window) :: ESleep 5 :: EScrollHeight h :: rest).
Proof.
  refine (proj1 (proj2 (falsy_entry_is_scraped (ops := barren) 2 0 first_window
            {| world := O; checked_ranges := {[ "2024-08-09_to_2024-08-15" := JInt 0 ]} |})
            (JInt 0) _ _)).
  - vm_compute. reflexivity.
  - reflexivity.
Defined.

Lemma stall_counter_range_witness :
  ∃ v st,
    iterates (ops := barren) at_entry fresh v st
    ∧ scroll_attempts v = 1
    ∧ 0 ≤ scroll_attempts v ≤ 2.
Proof.
  destruct (loop_body (ops := barren) at_entry fresh) as [[[v|] st] evs] eqn:E.
  - assert (iterates (ops := barren) at_entry fresh v st) as Hit.
    { eapply iterates_pass; [apply iterates_enter| |exact E].
      apply Nat.ltb_lt. vm_compute. reflexivity. }
    exists v, st. split; [exact Hit|split].
    + rewrite loop_body_unfold in E. simpl in E. by injection E as <- _ _.
    + exact (proj1 (stall_counter_range (ops := barren) at_entry fresh v st eq_refl Hit)).
  - rewrite loop_body_unfold in E. simpl in E. discriminate.
Defined.

(** * Further properties *)

(** ** File names *)





Section More.
Context {W : Type} {ops : World W}.

Implicit Types (v : loop_vars) (st : state W) (evs : list event).

(** ** The loop and the rest of the script *)

Lemma dump_files_loop_events evs : loop_events evs → dump_files evs = [].
Proof.
  unfold dump_files. induction 1 as [|e evs He _ IH]; simpl; [done|].
  destruct e; try done.
Qed.

Lemma dump_files_app ev1 ev2 : dump_files (ev1 ++ ev2) = dump_files ev1 ++ dump_files ev2.
Proof. apply omap_app. Qed.

(** X2.  The loop keeps to its page: however it ends, it has not sent the
    browser to another address, not written a file, not closed the browser
    and not changed the dictionary; and it does the same whatever the
    dictionary holds. *)
Theorem collect_loop_isolated fuel v st :
  ∃ o st' evs,
    collect_loop fuel v st = (o, st', evs)
    ∧ checked_ranges st' = checked_ranges st
    ∧ gets evs = []
    ∧ dump_files evs = []
    ∧ (EQuit ∉ evs)
    ∧ ∀ m, collect_loop fuel v (with_checked m st) = (o, with_checked m st', evs).
Proof.
  destruct (collect_loop_any fuel v st) as (o & st' & evs & E & Hck & Hle & _).
  exists o, st', evs. split_and!; try done.
  - by apply gets_loop_events.
  - by apply dump_files_loop_events.
  - intros Hin. unfold loop_events in Hle. rewrite Forall_forall in Hle.
    apply Hle in Hin. discriminate.
  - intros m. by rewrite collect_loop_frame, E.
Qed.

(** ** Long pauses *)

Lemma backoffs_app ev1 ev2 : backoffs (ev1 ++ ev2) = (backoffs ev1 + backoffs ev2)%nat.
Proof. unfold backoffs. by rewrite List.filter_app, length_app. Qed.

Lemma heights_app ev1 ev2 : heights (ev1 ++ ev2) = heights ev1 ++ heights ev2.
Proof. apply omap_app. Qed.

Lemma scans_app ev1 ev2 : scans (ev1 ++ ev2) = scans ev1 ++ scans ev2.
Proof. apply omap_app. Qed.

(** One pass, with all that the proofs below read off it. *)
Lemma loop_body_counts v st :
  ∃ v1 st1 ev1 texts,
    loop_body v st = (Done v1, st1, ev1)
    ∧ scans ev1 = [texts]
    ∧ tweets v1 = tweets v ∪ list_to_set texts
    ∧ heights ev1 = [last_height v1]
    ∧ (last_height v1 ≠ last_height v → scroll_attempts v1 = 0 ∧ backoffs ev1 = 0%nat)
    ∧ (last_height v1 = last_height v → scroll_attempts v + 1 < 3 →
       scroll_attempts v1 = scroll_attempts v + 1 ∧ backoffs ev1 = 0%nat)
    ∧ (last_height v1 = last_height v → 3 ≤ scroll_attempts v + 1 →
       scroll_attempts v1 = 0 ∧ backoffs ev1 = 1%nat).
Proof.
  destruct (loop_body_eval v st) as (texts & h & w & E).
  eexists _, _, _, texts. split; [exact E|]. simpl.
  unfold after_stall_test.
  destruct (Z.eqb_spec h (last_height v)) as [Heq|Hne];
    [destruct (Z.leb_spec 3 (scroll_attempts v + 1))|]; simpl;
    (split_and!; [done|by rewrite add_all_union|done|..]); intros; (done || lia).
Qed.

(** X3.  From a stall counter in 0..2, the loop makes at most one long pause
    for every three passes; and as long as the page height stays what it was
    when the loop started, it makes exactly one for every three passes,
    counting the stalls it started with. *)
Theorem backoffs_per_pass fuel v st o st' evs :
  0 ≤ scroll_attempts v ≤ 2 →
  collect_loop fuel v st = (o, st', evs) →
  3 * Z.of_nat (backoffs evs) ≤ scroll_attempts v + Z.of_nat (length (scans evs))
  ∧ (Forall (λ h, h = last_height v) (heights evs) →
     Z.of_nat (backoffs evs)
     = (scroll_attempts v + Z.of_nat (length (scans evs))) `div` 3).
Proof.
  revert v st o st' evs.
  induction fuel as [|fuel IH]; intros v st o st' evs Hsa.
  - simpl. destruct (size (tweets v) <? 500)%nat; intros [= _ _ <-];
      unfold backoffs; simpl;
      (split; [lia|intros _; symmetry; apply Z.div_small; lia]).
  - destruct (decide (size (tweets v) < 500)%nat) as [Hsz|Hsz].
    2:{ rewrite collect_loop_exit by lia. intros [= _ _ <-]. unfold backoffs; simpl.
        split; [lia|intros _; symmetry; apply Z.div_small; lia]. }
    rewrite collect_loop_pass by done.
    destruct (loop_body_counts v st)
      as (v1 & st1 & ev1 & texts & E1 & Hs1 & _ & Hh1 & Hne & Hlt & Hge).
    rewrite (bind_done _ _ _ _ _ _ E1).
    destruct (collect_loop fuel v1 st1) as [[o2 st2] ev2] eqn:E2.
    intros [= _ _ <-].
    rewrite backoffs_app, scans_app, heights_app, length_app, Hs1, Hh1. simpl.
    assert (0 ≤ scroll_attempts v1 ≤ 2) as Hsa1.
    { destruct (decide (last_height v1 = last_height v)) as [Heq|Hneq];
        [destruct (decide (scroll_attempts v + 1 < 3))|].
      - destruct (Hlt Heq) as [-> _]; lia.
      - destruct (Hge Heq) as [-> _]; lia.
      - destruct (Hne Hneq) as [-> _]; lia. }
    destruct (IH v1 st1 o2 st2 ev2 Hsa1 E2) as [IHle IHeq].
    split.
    + destruct (decide (last_height v1 = last_height v)) as [Heq|Hneq];
        [destruct (decide (scroll_attempts v + 1 < 3))|].
      * destruct (Hlt Heq) as [Hc Hb]; lia.
      * destruct (Hge Heq) as [Hc Hb]; lia.
      * destruct (Hne Hneq) as [Hc Hb]; lia.
    + intros Hall. apply Forall_cons in Hall as [Heq Hall].
      rewrite <- Heq in Hall. specialize (IHeq Hall).
      destruct (decide (scroll_attempts v + 1 < 3)).
      * destruct (Hlt Heq) as [Hc Hb]; [done|]. rewrite Hb, Hc in *.
        rewrite Nat2Z.inj_add, IHeq. change (Z.of_nat 0) with 0.
        rewrite Z.add_0_l. f_equal. lia.
      * destruct (Hge Heq) as [Hc Hb]; [lia|]. rewrite Hb, Hc in *.
        rewrite Nat2Z.inj_add, IHeq.
        replace (scroll_attempts v + Z.of_nat (S (length (scans ev2))))
          with (1 * 3 + (0 + Z.of_nat (length (scans ev2)))) by lia.
        by rewrite Z.div_add_l.
Qed.

(** ** How far past 500 *)

Lemma size_union_singleton (X : gset string) x : (size (X ∪ {[x]}) ≤ S (size X))%nat.
Proof.
  rewrite size_union_alt.
  assert (size (({[x]} : gset string) ∖ X) ≤ 1)%nat; [|lia].
  rewrite <- (size_singleton (C := gset string) x). apply subseteq_size. set_solver.
Qed.

Lemma size_union_list (X : gset string) (l : list string) :
  (size (X ∪ list_to_set l) ≤ size X + length l)%nat.
Proof.
  revert X. induction l as [|x l IH]; intros X; simpl.
  - rewrite (right_id_L ∅ (∪)). lia.
  - replace (X ∪ ({[x]} ∪ list_to_set l)) with ((X ∪ {[x]}) ∪ list_to_set l) by set_solver.
    pose proof (IH (X ∪ {[x]})). pose proof (size_union_singleton X x). lia.
Qed.

(** X4.  When the loop starts below 500 and returns, the set was still below
    500 before its last scan, and it is that set and the texts of the last
    scan: so it passes 499 by no more than the number of texts in the last
    scan. *)
Theorem overshoot_bounded fuel v st v' st' evs :
  (size (tweets v) < 500)%nat →
  collect_loop fuel v st = (Done v', st', evs) →
  ∃ earlier last,
    scans evs = earlier ++ [last]
    ∧ (size (tweets v ∪ list_to_set (concat earlier)) < 500)%nat
    ∧ tweets v' = tweets v ∪ list_to_set (concat earlier) ∪ list_to_set last
    ∧ (size (tweets v') ≤ 499 + length last)%nat.
Proof.
  revert v st evs. induction fuel as [|fuel IH]; intros v st evs Hsz.
  - by rewrite collect_loop_starved.
  - rewrite collect_loop_pass by done.
    destruct (loop_body_counts v st) as (v1 & st1 & ev1 & texts & E1 & Hs1 & Ht1 & _).
    rewrite (bind_done _ _ _ _ _ _ E1).
    destruct (decide (size (tweets v1) < 500)%nat) as [Hsz1|Hsz1].
    + destruct (collect_loop fuel v1 st1) as [[o2 st2] ev2] eqn:E2.
      intros [= -> -> <-].
      destruct (IH v1 st1 ev2 Hsz1 E2) as (earlier & last & Hs2 & Hlt & Htw & Hle).
      exists (texts :: earlier), last. rewrite scans_app, Hs1, Hs2. simpl.
      rewrite list_to_set_app_L. rewrite Ht1 in Hlt, Htw.
      replace (tweets v ∪ (list_to_set texts ∪ list_to_set (concat earlier)))
        with (tweets v ∪ list_to_set texts ∪ list_to_set (concat earlier)) by set_solver.
      done.
    + rewrite collect_loop_exit by lia. intros [= <- <- <-].
      exists [], texts. rewrite scans_app, Hs1. simpl.
      rewrite (right_id_L ∅ (∪)). split_and!; [done|done|done|].
      rewrite Ht1. pose proof (size_union_list (tweets v) texts). lia.
Qed.

(** ** A page with just enough posts *)

Lemma seen_cons e evs :
  seen (e :: evs)
  = match e with EFindTexts texts => list_to_set texts ∪ seen evs | _ => seen evs end.
Proof. destruct e; try done. unfold seen. simpl. by rewrite list_to_set_app_L. Qed.

Lemma collect_loop_confined (pool : gset string) (inv : W → Prop) fuel v st o st' evs :
  confined pool inv →
  inv (world st) →
  collect_loop fuel v st = (o, st', evs) →
  inv (world st') ∧ seen evs ⊆ pool.
Proof.
  intros Hconf. revert v st evs.
  induction fuel as [|fuel IH]; intros v st evs Hinv.
  - simpl. destruct (size (tweets v) <? 500)%nat; intros [= _ <- <-]; by split.
  - destruct (decide (size (tweets v) < 500)%nat) as [Hsz|Hsz].
    2:{ rewrite collect_loop_exit by lia. intros [= _ <- <-]; by split. }
    rewrite collect_loop_pass by done.
    unfold_bind. rewrite loop_body_unfold.
    destruct (confined_find _ _ Hconf _ Hinv) as [Hinv1 Htexts].
    destruct (w_find_tweet_texts (world st)) as [texts w1]; simpl in *.
    pose proof (confined_height _ _ Hconf _
      (confined_sleep _ _ Hconf 2 5 _ (confined_scroll _ _ Hconf _ Hinv1))) as Hinv3.
    destruct (w_scroll_height _) as [h w3]; simpl in *.
    match goal with |- context [collect_loop fuel ?v1 ?st1] =>
      destruct (collect_loop fuel v1 st1) as [[o2 st2] ev2] eqn:E2 end.
    intros [= <- <- <-].
    apply IH in E2 as [Hinv2 Hseen2].
    2:{ simpl. destruct (_ && _); [by apply (confined_sleep _ _ Hconf)|done]. }
    split; [done|].
    unfold after_stall_test.
    destruct (h =? last_height v); [destruct (3 <=? scroll_attempts v + 1)|];
      simpl; rewrite !seen_cons; set_solver.
Qed.

(** X5.  When the page a window arrives at never shows a text from outside a
    pool of exactly 500 texts, and the window is scraped to the end, the list
    it writes has exactly 500 entries: the texts of the pool. *)
Theorem exact_pool_written (pool : gset string) (inv : W → Prop)
    fuel i r st st' evs file l :
  confined pool inv →
  size pool = 500%nat →
  inv (w_scroll_height (w_sleep 5 (w_get (url r) (world st)))).2 →
  scrape_window fuel i r st = (Done tt, st', evs) →
  EDump file (DList l) ∈ evs →
  length l = 500%nat ∧ ∀ text, text ∈ l ↔ text ∈ pool.
Proof.
  intros Hconf Hpool Hinv E Hin.
  destruct (scrape_window_dumped_list _ _ _ _ _ _ _ _ E Hin) as (_ & -> & Hge).
  assert (seen evs ⊆ pool) as Hsub.
  { destruct (already_checked (checked_ranges st) (date_key r)) eqn:Hc.
    { rewrite scrape_window_skip in E by done. injection E as _ <-.
      apply list_elem_of_singleton in Hin. discriminate. }
    destruct (scrape_window_scrape fuel i r st Hc) as (h & w & Eh & E').
    rewrite Eh in Hinv. simpl in Hinv. rewrite E' in E.
    destruct (collect_loop fuel _ _) as [[[v|] st1] body] eqn:Eloop; [|discriminate].
    apply (collect_loop_confined pool inv) in Eloop as [_ Hbody]; [|done|done].
    apply (f_equal snd) in E. cbn [snd] in E. rewrite <- E. by rewrite seen_window. }
  assert (seen evs = pool) as -> by (apply set_subseteq_size_eq; [done|lia]).
  split; [exact Hpool|]. intros text. apply elem_of_elements.
Qed.

(** ** Pages with posts to spare *)

Lemma collect_loop_rich fuel v st :
  (∀ w, (500 ≤ size (list_to_set (w_find_tweet_texts w).1 : gset string))%nat) →
  ∃ v' st' evs,
    collect_loop (S fuel) v st = (Done v', st', evs) ∧ (length (scans evs) ≤ 1)%nat.
Proof.
  intros Hrich.
  destruct (decide (size (tweets v) < 500)%nat) as [Hsz|Hsz].
  2:{ rewrite collect_loop_exit by lia. eexists _, _, _. split; [done|]. simpl. lia. }
  rewrite collect_loop_pass by done.
  unfold_bind. rewrite loop_body_unfold.
  specialize (Hrich (world st)).
  destruct (w_find_tweet_texts (world st)) as [texts w1]; simpl in *.
  destruct (w_scroll_height _) as [h w3]; simpl.
  rewrite collect_loop_exit.
  - eexists _, _, _. split; [done|]. rewrite app_nil_r. unfold after_stall_test.
    by destruct (h =? last_height v); [destruct (3 <=? scroll_attempts v + 1)|].
  - simpl. rewrite add_all_union.
    etrans; [exact Hrich|]. apply subseteq_size. set_solver.
Qed.

Lemma for_windows_rich fuel ranges i st :
  (∀ w, (500 ≤ size (list_to_set (w_find_tweet_texts w).1 : gset string))%nat) →
  ∃ st' evs,
    for_windows (S fuel) i ranges st = (Done tt, st', evs)
    ∧ (length (scans evs) ≤ length ranges)%nat.
Proof.
  intros Hrich. revert i st. induction ranges as [|r ranges IH]; intros i st; simpl.
  - eexists _, _. split; [done|]. simpl. lia.
  - unfold_bind.
    assert (∃ st1 ev1, scrape_window (S fuel) i r st = (Done tt, st1, ev1)
                       ∧ (length (scans ev1) ≤ 1)%nat) as (st1 & ev1 & -> & Hs1).
    { destruct (already_checked (checked_ranges st) (date_key r)) eqn:Hc.
      { rewrite scrape_window_skip by done. eexists _, _. split; [done|]. simpl. lia. }
      destruct (scrape_window_scrape (S fuel) i r st Hc) as (h & w & _ & ->).
      destruct (collect_loop_rich fuel
                  {| tweets := ∅; last_height := h; scroll_attempts := 0 |}
                  {| world := w; checked_ranges := checked_ranges st |} Hrich)
        as (v' & st1 & body & -> & Hs).
      eexists _, _. split; [done|].
      rewrite !scans_app. unfold window_opening, window_closing. simpl.
      rewrite length_app. simpl. lia. }
    destruct (IH (S i) st1) as (st2 & ev2 & -> & Hs2).
    eexists _, _. split; [done|]. rewrite scans_app, length_app. lia.
Qed.

(** X6.  When every scan of the page shows at least 500 distinct texts, the
    script finishes, given fuel for one pass per window: it makes at most one
    scan for each window, and ends with every window marked as done. *)
Theorem rich_pages_finish fuel on_disk w0 :
  (∀ w, (500 ≤ size (list_to_set (w_find_tweet_texts w).1 : gset string))%nat) →
  ∃ st evs,
    scrape_tweets (S fuel) on_disk w0 = (Done tt, st, evs)
    ∧ (length (scans evs) ≤ length date_ranges)%nat
    ∧ ∀ r, r ∈ date_ranges → already_checked (checked_ranges st) (date_key r) = true.
Proof.
  intros Hrich. unfold scrape_tweets. rewrite script_unfold.
  destruct (for_windows_rich fuel date_ranges 0
              {| world := w_sleep 30 (w_get login_url w0);
                 checked_ranges := load_progress on_disk |} Hrich)
    as (st1 & ev1 & E1 & Hs1).
  cbn [world checked_ranges]. rewrite E1.
  eexists _, _. split; [done|]. split.
  - change (EGet login_url :: ESleep 30 :: ev1 ++ [EPrint "All weeks processed."; EQuit])
      with ([EGet login_url; ESleep 30] ++ ev1 ++ [EPrint "All weeks processed."; EQuit]).
    rewrite !scans_app, !length_app. simpl in Hs1 |- *. lia.
  - intros r Hr. simpl. by apply (for_windows_marks _ _ _ _ _ _ E1).
Qed.

(** ** Which windows a run visits *)

Lemma unchecked_insert_ne (m : gmap string json) r r' :
  date_key r ≠ date_key r' →
  unchecked (<[date_key r := JBool true]> m) r' = unchecked m r'.
Proof. intros Hne. unfold unchecked. by rewrite already_checked_insert_ne. Qed.

Lemma files_of_insert_ne (m : gmap string json) r i r' :
  date_key r ≠ date_key r' →
  files_of (<[date_key r := JBool true]> m) i r' = files_of m i r'.
Proof. intros Hne. unfold files_of. by rewrite unchecked_insert_ne. Qed.

Lemma not_in_keys r (ranges : list date_range) r' :
  date_key r ∉ date_key <$> ranges → r' ∈ ranges → date_key r ≠ date_key r'.
Proof. intros Hr Hr' Hk. apply Hr. rewrite Hk. by apply list_elem_of_fmap_2. Qed.

(** What a window that is scraped shows of itself: one navigation, and its
    two files when it gets to the end. *)
Lemma scraped_window_trace r h body i (m : gmap string json) c :
  loop_events body →
  gets (window_opening r h ++ body) = [url r]
  ∧ dump_files (window_opening r h ++ body) = []
  ∧ gets (window_opening r h ++ body ++ window_closing i r m c) = [url r]
  ∧ dump_files (window_opening r h ++ body ++ window_closing i r m c)
    = [week_file i; progress_file].
Proof.
  intros Hle.
  rewrite !gets_app, !dump_files_app, (gets_loop_events body),
    (dump_files_loop_events body) by done.
  done.
Qed.

Lemma for_windows_visits fuel ranges :
  NoDup (date_key <$> ranges) →
  ∀ i st o st' evs,
    for_windows fuel i ranges st = (o, st', evs) →
    match o with
    | Done _ =>
        gets evs = url <$> List.filter (unchecked (checked_ranges st)) ranges
        ∧ dump_files evs
          = concat (imap (λ j r, files_of (checked_ranges st) (i + j) r) ranges)
    | OutOfFuel =>
        ∃ k r,
          ranges !! k = Some r
          ∧ unchecked (checked_ranges st) r = true
          ∧ gets evs
            = url <$> List.filter (unchecked (checked_ranges st)) (take (S k) ranges)
          ∧ dump_files evs
            = concat (imap (λ j r, files_of (checked_ranges st) (i + j) r) (take k ranges))
    end.
Proof.
  induction ranges as [|r ranges IH]; intros Hnd i st o st' evs.
  { simpl. by intros [= <- _ <-]. }
  rewrite fmap_cons in Hnd. apply NoDup_cons in Hnd as [Hr Hnd].
  change (for_windows fuel i (r :: ranges) st)
    with ((scrape_window fuel i r ≫= λ _, for_windows fuel (S i) ranges) st).
  unfold_bind.
  destruct (scrape_window fuel i r st) as [[o1 st1] ev1] eqn:E1.
  assert (imap (λ j r0, files_of (checked_ranges st) (i + S j) r0) ranges
          = imap (λ j r0, files_of (checked_ranges st) (S i + j) r0) ranges) as Hshift.
  { apply imap_ext. intros j r0 _. f_equal. lia. }
  destruct o1 as [[]|].
  - destruct (for_windows fuel (S i) ranges st1) as [[o2 st2] ev2] eqn:E2.
    intros [= <- _ <-]. specialize (IH Hnd (S i) st1 o2 st2 ev2 E2).
    destruct (scrape_window_done _ _ _ _ _ _ E1)
      as [(Hc & -> & ->)|(Hc & h & body & c & -> & Hle & _ & _ & Hst1)].
    + (* skipped *)
      assert (unchecked (checked_ranges st) r = false) as Hu
        by (unfold unchecked; by rewrite Hc).
      assert (files_of (checked_ranges st) (i + 0) r = []) as Hf
        by (unfold files_of; by rewrite Hu).
      destruct o2 as [[]|].
      * destruct IH as [Hg Hd]. cbn [List.filter]. rewrite Hu. split; [done|].
        rewrite imap_cons, Hf. simpl. unfold compose. by rewrite Hshift.
      * destruct IH as (k & r' & Hk & Hu' & Hg & Hd).
        exists (S k), r'. split_and!; [done|done| |].
        -- change (take (S (S k)) (r :: ranges)) with (r :: take (S k) ranges).
           simpl. by rewrite Hu.
        -- change (take (S k) (r :: ranges)) with (r :: take k ranges).
           rewrite imap_cons, Hf. simpl. unfold compose.
           rewrite Hd. f_equal. apply imap_ext. intros j r0 _. f_equal. lia.
    + (* scraped to the end *)
      assert (unchecked (checked_ranges st) r = true) as Hu
        by (unfold unchecked; by rewrite Hc).
      assert (files_of (checked_ranges st) (i + 0) r = [week_file i; progress_file]) as Hf
        by (unfold files_of; by rewrite Hu, Nat.add_0_r).
      destruct (scraped_window_trace r h body i (checked_ranges st) c Hle)
        as (_ & _ & Hg1 & Hd1).
      rewrite Hst1 in IH.
      destruct o2 as [[]|].
      * destruct IH as [Hg Hd]. cbn [List.filter]. rewrite Hu. split.
        -- rewrite gets_app, Hg1, Hg. simpl. f_equal. f_equal.
           apply List.filter_ext_in. intros r' Hr'. apply unchecked_insert_ne.
           apply (not_in_keys _ ranges); [done|]. by apply list_elem_of_In.
        -- rewrite dump_files_app, Hd1, Hd, imap_cons, Hf. simpl. do 2 f_equal.
           unfold compose. f_equal. apply imap_ext. intros j r' Hj.
           replace (i + S j)%nat with (S (i + j)) by lia.
           apply files_of_insert_ne, (not_in_keys _ ranges); [done|].
           by eapply list_elem_of_lookup_2.
      * destruct IH as (k & r' & Hk & Hu' & Hg & Hd).
        assert (∀ r0, r0 ∈ ranges → date_key r ≠ date_key r0) as Hne
          by (intros r0; by apply not_in_keys).
        exists (S k), r'. split_and!; [done| | |].
        -- rewrite <- Hu'. symmetry. apply unchecked_insert_ne, Hne.
           by eapply list_elem_of_lookup_2.
        -- change (take (S (S k)) (r :: ranges)) with (r :: take (S k) ranges).
           cbn [List.filter]. rewrite Hu, gets_app, Hg1, Hg. simpl. do 2 f_equal.
           apply List.filter_ext_in. intros r0 Hr0. apply unchecked_insert_ne, Hne.
           apply list_elem_of_In in Hr0. by apply (subseteq_take (S k) ranges).
        -- change (take (S k) (r :: ranges)) with (r :: take k ranges).
           rewrite dump_files_app, Hd1, Hd, imap_cons, Hf. simpl. do 2 f_equal.
           unfold compose. f_equal. apply imap_ext. intros j r0 Hj.
           replace (i + S j)%nat with (S (i + j)) by lia.
           apply files_of_insert_ne, Hne.
           apply list_elem_of_lookup_2 in Hj. by apply (subseteq_take k ranges).
  - intros [= <- _ <-].
    destruct (scrape_window_out_of_fuel _ _ _ _ _ _ E1) as (Hc & _ & h & body & -> & Hle).
    assert (unchecked (checked_ranges st) r = true) as Hu
      by (unfold unchecked; by rewrite Hc).
    destruct (scraped_window_trace r h body i (checked_ranges st) ∅ Hle)
      as (Hg1 & Hd1 & _ & _).
    exists O, r. split_and!; [done|done| |done].
    rewrite Hg1. simpl. by rewrite Hu.
Qed.

(** X7.  A run goes to the login page and then, in the order of the list, to
    the windows that the loaded dictionary does not mark as done, and to no
    others.  When it finishes, it has written for each of them its output
    file and then the progress file, once, and nothing else.  When it does
    not, it is stuck in one of them: it has been to those up to that one and
    has written the files of those before it. *)
Theorem run_visits_unmarked fuel on_disk w0 o st evs :
  scrape_tweets fuel on_disk w0 = (o, st, evs) →
  (o = Done tt →
     gets evs
     = login_url :: (url <$> List.filter (unchecked (load_progress on_disk)) date_ranges)
     ∧ dump_files evs = concat (imap (files_of (load_progress on_disk)) date_ranges))
  ∧ (o = OutOfFuel →
     ∃ k r,
       date_ranges !! k = Some r
       ∧ unchecked (load_progress on_disk) r = true
       ∧ gets evs
         = login_url
           :: (url <$> List.filter (unchecked (load_progress on_disk))
                         (take (S k) date_ranges))
       ∧ dump_files evs
         = concat (imap (files_of (load_progress on_disk)) (take k date_ranges))).
Proof.
  unfold scrape_tweets. rewrite script_unfold. cbn [world checked_ranges].
  destruct (for_windows fuel 0 date_ranges _) as [[o1 st1] ev1] eqn:E1.
  pose proof (for_windows_visits fuel date_ranges date_keys_differ _ _ _ _ _ E1) as Hv.
  cbn [checked_ranges] in Hv.
  destruct o1 as [[]|]; intros [= <- _ <-]; split; intros Ho; try discriminate Ho.
  - destruct Hv as [Hg Hd].
    change (EGet login_url :: ESleep 30 :: ev1 ++ [EPrint "All weeks processed."; EQuit])
      with ([EGet login_url; ESleep 30] ++ ev1 ++ [EPrint "All weeks processed."; EQuit]).
    rewrite !gets_app, !dump_files_app, Hg, Hd.
    change (gets [EGet login_url; ESleep 30]) with [login_url].
    change (dump_files [EGet login_url; ESleep 30]) with (@nil string).
    change (gets [EPrint "All weeks processed."; EQuit]) with (@nil string).
    change (dump_files [EPrint "All weeks processed."; EQuit]) with (@nil string).
    rewrite !app_nil_r. split; reflexivity.
  - destruct Hv as (k & r & Hk & Hu & Hg & Hd).
    exists k, r.
    change (EGet login_url :: ESleep 30 :: ev1) with ([EGet login_url; ESleep 30] ++ ev1).
    rewrite gets_app, dump_files_app, Hg, Hd.
    change (gets [EGet login_url; ESleep 30]) with [login_url].
    change (dump_files [EGet login_url; ESleep 30]) with (@nil string).
    split_and!; [exact Hk|exact Hu|reflexivity|reflexivity].
Qed.

(** ** The next run *)

Lemma agrees_progress_on fs (m : gmap string json) :
  agrees fs m → load_progress (progress_on fs) = m.
Proof.
  intros (on_disk & Hfs & Hm). unfold progress_on. rewrite Hfs.
  by destruct on_disk.
Qed.

Lemma scrape_window_agrees fuel i r st fs o st' evs :
  agrees fs (checked_ranges st) →
  scrape_window fuel i r st = (o, st', evs) →
  agrees (replay fs evs) (checked_ranges st').
Proof.
  intros Hag E. destruct o as [[]|].
  - destruct (scrape_window_done _ _ _ _ _ _ E)
      as [(_ & -> & ->)|(_ & h & body & c & -> & Hle & _ & _ & ->)]; [done|].
    rewrite app_assoc, replay_app. simpl.
    exists (Some (<[date_key r := JBool true]> (checked_ranges st))).
    by rewrite lookup_insert_eq.
  - destruct (scrape_window_out_of_fuel _ _ _ _ _ _ E) as (_ & -> & h & body & -> & Hle).
    rewrite replay_app. simpl. by rewrite replay_loop_events.
Qed.

Lemma for_windows_agrees fuel ranges i st fs o st' evs :
  agrees fs (checked_ranges st) →
  for_windows fuel i ranges st = (o, st', evs) →
  agrees (replay fs evs) (checked_ranges st').
Proof.
  revert i st fs evs. induction ranges as [|r ranges IH]; intros i st fs evs Hag; simpl.
  - by intros [= _ <- <-].
  - unfold_bind.
    destruct (scrape_window fuel i r st) as [[[[]|] st1] ev1] eqn:E1.
    + destruct (for_windows fuel (S i) ranges st1) as [[o2 st2] ev2] eqn:E2.
      intros [= <- <- <-]. rewrite replay_app.
      eapply IH; [|exact E2]. by eapply scrape_window_agrees.
    + intros [= _ <- <-]. by eapply scrape_window_agrees.
Qed.

(** The trace of a run over windows that are all marked. *)
Lemma for_windows_skips_all fuel ranges i st :
  (∀ r, r ∈ ranges → already_checked (checked_ranges st) (date_key r) = true) →
  for_windows fuel i ranges st
  = (Done tt, st,
     (λ r, EPrint ("Skipping already checked range: " +:+ date_key r)) <$> ranges).
Proof.
  revert i. induction ranges as [|r ranges IH]; intros i Hall; simpl; [done|].
  unfold_bind. rewrite scrape_window_skip by (apply Hall; left).
  rewrite IH by (intros; apply Hall; by right). done.
Qed.

(** X8.  When a run stops, finished or not, the progress file on the disk is
    the dictionary the run holds in memory.  So a second run after one that
    finished starts from that dictionary, and does nothing but log in, print
    one skip line for each window and quit: it goes to no search page and
    writes no file. *)
Theorem next_run_skips_all fuel on_disk w0 fs o st evs :
  fs !! progress_file = DDict <$> on_disk →
  scrape_tweets fuel on_disk w0 = (o, st, evs) →
  load_progress (progress_on (replay fs evs)) = checked_ranges st
  ∧ (o = Done tt →
     ∀ fuel' w1,
       scrape_tweets fuel' (progress_on (replay fs evs)) w1
       = (Done tt,
          {| world := w_quit (w_sleep 30 (w_get login_url w1));
             checked_ranges := checked_ranges st |},
          EGet login_url :: ESleep 30
          :: ((λ r, EPrint ("Skipping already checked range: " +:+ date_key r))
                <$> date_ranges)
          ++ [EPrint "All weeks processed."; EQuit])).
Proof.
  intros Hfs. unfold scrape_tweets at 1. rewrite script_unfold. cbn [world checked_ranges].
  destruct (for_windows fuel 0 date_ranges _) as [[o1 st1] ev1] eqn:E1.
  assert (agrees fs (load_progress on_disk)) as Hag by (by exists on_disk).
  pose proof (for_windows_agrees fuel date_ranges 0
                {| world := w_sleep 30 (w_get login_url w0);
                   checked_ranges := load_progress on_disk |} fs o1 st1 ev1 Hag E1) as Hag1.
  apply agrees_progress_on in Hag1.
  assert (∀ tail, replay fs (EGet login_url :: ESleep 30 :: ev1 ++ tail)
                  = replay (replay fs ev1) tail) as Hreplay
    by (intros tail; simpl; apply replay_app).
  destruct o1 as [[]|]; intros [= <- <- <-]; cbn [checked_ranges].
  - rewrite Hreplay. simpl. split; [done|]. intros _ fuel' w1.
    unfold scrape_tweets. rewrite script_unfold. cbn [world checked_ranges].
    rewrite Hag1, for_windows_skips_all; [done|].
    intros r Hr. by apply (for_windows_marks _ _ _ _ _ _ E1).
  - split; [|done]. rewrite <- (app_nil_r ev1), Hreplay. done.
Qed.

(** ** What the dumps hold *)

Lemma marks_only_refl ranges (m : gmap string json) : marks_only ranges m m.
Proof. intros k. by left. Qed.

Lemma marks_only_insert ranges (loaded m : gmap string json) r :
  r ∈ ranges →
  marks_only ranges loaded m →
  marks_only ranges loaded (<[date_key r := JBool true]> m).
Proof.
  intros Hr Hm k. destruct (decide (date_key r = k)) as [<-|Hne].
  - right. rewrite lookup_insert_eq. split; [done|]. by exists r.
  - rewrite lookup_insert_ne by done. apply Hm.
Qed.

Lemma for_windows_dumps fuel all (loaded : gmap string json) ranges :
  ∀ i st o st' evs,
    ranges ⊆ all →
    marks_only all loaded (checked_ranges st) →
    for_windows fuel i ranges st = (o, st', evs) →
    marks_only all loaded (checked_ranges st')
    ∧ (∀ file m, EDump file (DDict m) ∈ evs →
         file = progress_file ∧ marks_only all loaded m)
    ∧ (∀ file l, EDump file (DList l) ∈ evs →
         ∃ j, (i ≤ j < i + length ranges)%nat ∧ file = week_file j).
Proof.
  induction ranges as [|r ranges IH]; intros i st o st' evs Hsub Hm; simpl.
  - intros [= _ <- <-]. split_and!; [done|..]; intros ? ? Hin; by apply elem_of_nil in Hin.
  - unfold_bind.
    destruct (scrape_window fuel i r st) as [[o1 st1] ev1] eqn:E1.
    assert (r ∈ all) as Hr by (apply Hsub; left).
    assert (ranges ⊆ all) as Hsub' by (intros r' Hr'; apply Hsub; by right).
    assert (marks_only all loaded (checked_ranges st1)
            ∧ (∀ file m, EDump file (DDict m) ∈ ev1 →
                 file = progress_file ∧ marks_only all loaded m)
            ∧ (∀ file l, EDump file (DList l) ∈ ev1 → file = week_file i))
      as (Hm1 & Hd1 & Hl1).
    { destruct o1 as [[]|].
      - destruct (scrape_window_done _ _ _ _ _ _ E1)
          as [(_ & -> & ->)|(_ & h & body & c & -> & Hle & _ & _ & Hst1)].
        { split_and!; [done|..]; intros ? ? Hin;
            apply list_elem_of_singleton in Hin; discriminate. }
        unfold loop_events in Hle. rewrite Forall_forall in Hle.
        rewrite Hst1. split_and!; [by apply marks_only_insert|..]; intros file x Hin.
        + apply elem_of_app in Hin as [Hin|Hin];
            [unfold window_opening in Hin; set_unfold; naive_solver|].
          apply elem_of_app in Hin as [Hin|Hin]; [apply Hle in Hin; discriminate|].
          unfold window_closing in Hin. set_unfold.
          destruct Hin as [?|[?|[[= -> ->]|[]]]]; try done.
          split; [done|]. by apply marks_only_insert.
        + apply elem_of_app in Hin as [Hin|Hin];
            [unfold window_opening in Hin; set_unfold; naive_solver|].
          apply elem_of_app in Hin as [Hin|Hin]; [apply Hle in Hin; discriminate|].
          unfold window_closing in Hin. set_unfold.
          destruct Hin as [?|[[= -> _]|[?|[]]]]; done.
      - destruct (scrape_window_out_of_fuel _ _ _ _ _ _ E1)
          as (_ & -> & h & body & -> & Hle).
        unfold loop_events in Hle. rewrite Forall_forall in Hle.
        split_and!; [done|..]; intros file x Hin;
          (apply elem_of_app in Hin as [Hin|Hin];
           [unfold window_opening in Hin; set_unfold; naive_solver
           |apply Hle in Hin; discriminate]). }
    destruct o1 as [[]|].
    + destruct (for_windows fuel (S i) ranges st1) as [[o2 st2] ev2] eqn:E2.
      intros [= _ <- <-].
      destruct (IH (S i) st1 o2 st2 ev2 Hsub' Hm1 E2) as (Hm2 & Hd2 & Hl2).
      split_and!; [done|..]; intros file x Hin; apply elem_of_app in Hin as [Hin|Hin].
      * by apply Hd1.
      * by apply Hd2.
      * exists i. split; [lia|]. by eapply Hl1.
      * destruct (Hl2 _ _ Hin) as (j & Hj & ->). exists j. split; [lia|done].
    + intros [= _ <- <-]. split_and!; [done|done|].
      intros file l Hin. exists i. split; [lia|]. by eapply Hl1.
Qed.

(** X9.  Every dictionary a run dumps goes to the progress file, and is the
    loaded dictionary with nothing removed and nothing changed but keys of
    configured windows set to [True]; so is the dictionary the run ends
    with.  Every list a run dumps goes to the output file of one of the
    sixteen positions. *)
Theorem dumps_only_mark fuel on_disk w0 o st evs :
  scrape_tweets fuel on_disk w0 = (o, st, evs) →
  marks_only date_ranges (load_progress on_disk) (checked_ranges st)
  ∧ (∀ file m, EDump file (DDict m) ∈ evs →
       file = progress_file ∧ marks_only date_ranges (load_progress on_disk) m)
  ∧ (∀ file l, EDump file (DList l) ∈ evs →
       ∃ j, (j < length date_ranges)%nat ∧ file = week_file j).
Proof.
  unfold scrape_tweets. rewrite script_unfold. cbn [world checked_ranges].
  destruct (for_windows fuel 0 date_ranges _) as [[o1 st1] ev1] eqn:E1.
  destruct (for_windows_dumps fuel date_ranges (load_progress on_disk) date_ranges
              0 {| world := w_sleep 30 (w_get login_url w0);
                   checked_ranges := load_progress on_disk |}
              o1 st1 ev1 (reflexivity _) (marks_only_refl _ _) E1)
    as (Hm & Hd & Hl).
  assert (∀ e, is_Some (match e with EDump _ _ => Some e | _ => None end) →
            e ∈ EGet login_url :: ESleep 30 :: ev1 ++ [EPrint "All weeks processed."; EQuit]
            ∨ e ∈ EGet login_url :: ESleep 30 :: ev1 →
            e ∈ ev1) as Hin1.
  { intros e He Hin. set_unfold.
    destruct Hin as [[->|[->|[?|[->|[->|[]]]]]]|[->|[->|?]]];
      done || by destruct He. }
  destruct o1 as [[]|]; intros [= _ <- <-]; cbn [checked_ranges];
    (split_and!; [done|..]); intros file x Hin.
  - apply Hd, Hin1; eauto.
  - destruct (Hl file x) as (j & Hj & ->); [apply Hin1; eauto|]. exists j.
    split; [lia|done].
  - apply Hd, Hin1; eauto.
  - destruct (Hl file x) as (j & Hj & ->); [apply Hin1; eauto|]. exists j.
    split; [lia|done].
Qed.
End More.

(** * The further properties on the pages *)

Lemma some_texts_le n m : (n ≤ m)%nat → some_texts n ⊆ some_texts m.
Proof.
  intros Hle text. unfold some_texts. rewrite !list_elem_of_In, !in_map_iff.
  intros (k & Hk & Hin). exists k. split; [done|].
  apply in_seq in Hin. apply in_seq. lia.
Qed.

Lemma exact_confined : confined (ops := exact) (list_to_set (some_texts 500)) (λ _, True).
Proof.
  split; [intros n _|done..]. split; [exact I|].
  change (list_to_set (some_texts (Nat.min 500 (100 * (n + 1))))
          ⊆ (list_to_set (some_texts 500) : gset string)).
  intros text. rewrite !elem_of_list_to_set. apply some_texts_le, Nat.le_min_l.
Qed.

(** A window that ran to the end and wrote one list, of [n] texts, to the
    first output file. *)
Lemma written_of_summary (run : outcome unit * state nat * list event) n :
  (run.1.1, written_lengths run.2) = (Done tt, [("week1.json", n)]) →
  ∃ st' evs l,
    run = (Done tt, st', evs) ∧ EDump "week1.json" (DList l) ∈ evs ∧ length l = n.
Proof.
  destruct run as [[o st'] evs]. simpl. intros [= -> Hlen].
  unfold written_lengths in Hlen.
  destruct (written_lists evs) as [|[file l] [|? ?]] eqn:Hw; try discriminate.
  injection Hlen as -> Hl.
  exists st', evs, l. split_and!; [done| |done].
  apply written_lists_elem. rewrite Hw. by left.
Qed.

(** On [exact], the first window is done after five passes. *)
Lemma exact_first_window :
  let run := scrape_window (ops := exact) 5 0 first_window fresh in
  (run.1.1, written_lengths run.2) = (Done tt, [("week1.json", 500%nat)]).
Proof. vm_compute. reflexivity. Qed.

(** On [barren], seven passes of the loop all read the same height. *)
Lemma barren_seven_passes :
  let run := collect_loop (ops := barren) 7 at_entry fresh in
  (match run.1.1 with OutOfFuel => true | Done _ => false end,
   heights run.2, length (scans run.2))
  = (true, [1000; 1000; 1000; 1000; 1000; 1000; 1000], 7%nat).
Proof. vm_compute. reflexivity. Qed.

(** On [burst], the loop returns after one pass. *)
Lemma burst_one_pass :
  let run := collect_loop (ops := burst) 1 at_entry fresh in
  match run.1.1 with Done _ => true | OutOfFuel => false end = true.
Proof. vm_compute. reflexivity. Qed.


Lemma backoffs_per_pass_witness :
  ∃ o st' evs,
    collect_loop (ops := barren) 7 at_entry fresh = (o, st', evs)
    ∧ backoffs evs = 2%nat.
Proof.
  pose proof barren_seven_passes as Hrun. cbv zeta in Hrun.
  destruct (collect_loop (ops := barren) 7 at_entry fresh) as [[o st'] evs] eqn:E.
  cbn [fst snd] in Hrun. injection Hrun as _ Hh Hs.
  exists o, st', evs. split; [reflexivity|].
  destruct (backoffs_per_pass (ops := barren) 7 at_entry fresh o st' evs) as [_ Heq].
  - simpl. lia.
  - exact E.
  - rewrite Hh, Hs in Heq. simpl in Heq.
    apply Nat2Z.inj. rewrite Heq; [reflexivity|]. by repeat constructor.
Defined.

Lemma overshoot_bounded_witness :
  ∃ v' st' evs last,
    collect_loop (ops := burst) 1 at_entry fresh = (Done v', st', evs)
    ∧ scans evs = [last]
    ∧ (size (tweets v') ≤ 499 + length last)%nat.
Proof.
  destruct (collect_loop (ops := burst) 1 at_entry fresh) as [[[v'|] st'] evs] eqn:E.
  - destruct (overshoot_bounded (ops := burst) 1 at_entry fresh v' st' evs)
      as (earlier & last & Hs & _ & _ & Hle).
    + apply Nat.ltb_lt. vm_compute. reflexivity.
    + exact E.
    + exists v', st', evs, last. split; [reflexivity|]. split; [|exact Hle].
      destruct (collect_loop_any (ops := burst) 1 at_entry fresh)
        as (o & st1 & ev1 & E1 & _ & _ & Hlen & _).
      rewrite E in E1. injection E1 as _ _ <-.
      rewrite Hs, length_app in Hlen. simpl in Hlen.
      destruct earlier; [done|simpl in Hlen; lia].
  - pose proof burst_one_pass as Hrun. cbv zeta in Hrun. rewrite E in Hrun.
    discriminate Hrun.
Defined.

Lemma exact_pool_written_witness :
  ∃ st' evs (l : list string),
    scrape_window (ops := exact) 5 0 first_window fresh = (Done tt, st', evs)
    ∧ EDump "week1.json" (DList l) ∈ evs
    ∧ ∀ text, text ∈ l ↔ text ∈ some_texts 500.
Proof.
  destruct (written_of_summary (scrape_window (ops := exact) 5 0 first_window fresh)
              500 exact_first_window) as (st' & evs & l & E & Hin & _).
  exists st', evs, l. split_and!; [exact E|exact Hin|].
  destruct (exact_pool_written (ops := exact) (list_to_set (some_texts 500)) (λ _, True)
              5 0 first_window fresh st' evs "week1.json" l) as [_ Hl].
  - exact exact_confined.
  - vm_compute. reflexivity.
  - exact I.
  - exact E.
  - exact Hin.
  - intros text. rewrite Hl. apply elem_of_list_to_set.
Defined.

Lemma burst_rich :
  ∀ w, (500 ≤ size (list_to_set (w_find_tweet_texts (World := burst) w).1 : gset string))%nat.
Proof. intros w. simpl. apply Nat.leb_le. vm_compute. reflexivity. Qed.

Lemma rich_pages_finish_witness :
  ∃ st evs,
    scrape_tweets (ops := burst) 1 None O = (Done tt, st, evs)
    ∧ (length (scans evs) ≤ length date_ranges)%nat
    ∧ ∀ r, r ∈ date_ranges → already_checked (checked_ranges st) (date_key r) = true.
Proof. exact (rich_pages_finish (ops := burst) 0 None O burst_rich). Defined.

Lemma run_visits_unmarked_witness :
  ∃ o st evs,
    scrape_tweets (ops := burst) 1 None O = (o, st, evs)
    ∧ (o = Done tt → gets evs = login_url :: (url <$> date_ranges)).
Proof.
  destruct (scrape_tweets (ops := burst) 1 None O) as [[o st] evs] eqn:E.
  exists o, st, evs. split; [reflexivity|]. intros Ho.
  destruct (proj1 (run_visits_unmarked (ops := burst) 1 None O o st evs E) Ho) as [Hg _].
  rewrite Hg. vm_compute. reflexivity.
Defined.

Lemma next_run_skips_all_witness :
  ∃ o st evs,
    scrape_tweets (ops := burst) 1 None O = (o, st, evs)
    ∧ load_progress (progress_on (replay ∅ evs)) = checked_ranges st.
Proof.
  destruct (scrape_tweets (ops := burst) 1 None O) as [[o st] evs] eqn:E.
  exists o, st, evs. split; [reflexivity|].
  refine (proj1 (next_run_skips_all (ops := burst) 1 None O ∅ o st evs _ E)).
  reflexivity.
Defined.

Lemma dumps_only_mark_witness :
  ∃ o st evs,
    scrape_tweets (ops := burst) 1 None O = (o, st, evs)
    ∧ marks_only date_ranges ∅ (checked_ranges st).
Proof.
  destruct (scrape_tweets (ops := burst) 1 None O) as [[o st] evs] eqn:E.
  exists o, st, evs. split; [reflexivity|].
  exact (proj1 (dumps_only_mark (ops := burst) 1 None O o st evs E)).
Defined.
